(** * G3D attribute model (src/g3d.h), embedded in Rocq

    The header [g3d.h] defines the attribute descriptor of the G3D mesh
    format, its string form, the attribute view over a byte range, the two
    attribute builders and the [G3d] attribute collection.  This file
    translates those definitions function by function and states the
    properties of the format over the translation.

    Conventions of the embedding:
    - an [int32_t] is a [Z]; where the code computes with it the wrap-around
      is written out ([int32], [size_t]);
    - a C++ exception is a value of [exception]; a function that can throw
      returns a [result];
    - a [std::map] is a [gmap]; iteration over it goes through the key-sorted
      list of its entries, as [std::map] iterates;
    - a pointer is an address ([Z], 0 for [nullptr]) together with the bytes
      that can be read behind it. *)

From Stdlib Require Import ZArith Ascii String.
From Stdlib.Strings Require Import Byte.
From stdpp Require Import gmap strings list fin_maps pretty sorting.

Open Scope string_scope.
Open Scope Z_scope.

(** ** Exceptions and results *)

(** The exceptions the header throws: [runtime_error] with its message,
    [std::out_of_range] (from [map::at] and [stoi]) and
    [std::invalid_argument] (from [stoi]). *)
Inductive exception : Type :=
| runtime_error (what : string)
| out_of_range
| invalid_argument.

(** Outcome of a call: a value, a thrown exception, or behaviour the C++
    standard leaves undefined (a division by zero, a read past the extent of
    a source range, a read through a dangling reference). *)
Inductive result (A : Type) : Type :=
| Ok (a : A)
| Throw (e : exception)
| Undefined.

Arguments Ok {A} a.
Arguments Throw {A} e.
Arguments Undefined {A}.

Definition bind {A B : Type} (r : result A) (k : A -> result B) : result B :=
  match r with
  | Ok a => k a
  | Throw e => Throw e
  | Undefined => Undefined
  end.

#[global] Instance result_bind : MBind result :=
  fun A B k r => bind r k.
#[global] Instance result_ret : MRet result := @Ok.


#[global] Instance exception_eq_dec : EqDecision exception.
Proof. solve_decision. Defined.

(** ** Machine integers *)

Definition INT_MIN : Z := - 2 ^ 31.
Definition INT_MAX : Z := 2 ^ 31 - 1.

(** Two's complement wrap-around of a value stored in an [int32_t]. *)
Definition int32 (z : Z) : Z := (z + 2 ^ 31) mod 2 ^ 32 - 2 ^ 31.

(** Conversion to the 64-bit unsigned [size_t]. *)
Definition size_t (z : Z) : Z := z mod 2 ^ 64.

(** ** The enumerations *)

Inductive DataType : Set :=
| dt_uint8 | dt_uint16 | dt_uint32 | dt_uint64 | dt_uint128
| dt_int8 | dt_int16 | dt_int32 | dt_int64 | dt_int128
| dt_float16 | dt_float32 | dt_float64 | dt_float128
| dt_invalid.

Inductive Association : Set :=
| assoc_vertex | assoc_face | assoc_corner | assoc_edge | assoc_object
| assoc_none
| assoc_invalid.

Inductive AttributeType : Set :=
| attr_custom | attr_coordinate | attr_index | attr_faceindex
| attr_facesize | attr_normal | attr_binormal | attr_tangent
| attr_materialid | attr_polygroup | attr_uv | attr_color
| attr_smoothing | attr_crease | attr_hole | attr_invisibility
| attr_selection | attr_pervertex | attr_mapchannel_data
| attr_mapchannel_index
| attr_invalid.

(** The value of an enumerator: enumerators count from zero in the order of
    their declaration. *)
Definition DataType_value (dt : DataType) : Z :=
  match dt with
  | dt_uint8 => 0 | dt_uint16 => 1 | dt_uint32 => 2 | dt_uint64 => 3
  | dt_uint128 => 4
  | dt_int8 => 5 | dt_int16 => 6 | dt_int32 => 7 | dt_int64 => 8
  | dt_int128 => 9
  | dt_float16 => 10 | dt_float32 => 11 | dt_float64 => 12
  | dt_float128 => 13
  | dt_invalid => 14
  end.

Definition Association_value (a : Association) : Z :=
  match a with
  | assoc_vertex => 0 | assoc_face => 1 | assoc_corner => 2
  | assoc_edge => 3 | assoc_object => 4 | assoc_none => 5
  | assoc_invalid => 6
  end.

Definition AttributeType_value (t : AttributeType) : Z :=
  match t with
  | attr_custom => 0 | attr_coordinate => 1 | attr_index => 2
  | attr_faceindex => 3 | attr_facesize => 4 | attr_normal => 5
  | attr_binormal => 6 | attr_tangent => 7 | attr_materialid => 8
  | attr_polygroup => 9 | attr_uv => 10 | attr_color => 11
  | attr_smoothing => 12 | attr_crease => 13 | attr_hole => 14
  | attr_invisibility => 15 | attr_selection => 16 | attr_pervertex => 17
  | attr_mapchannel_data => 18 | attr_mapchannel_index => 19
  | attr_invalid => 20
  end.

Coercion DataType_value : DataType >-> Z.
Coercion Association_value : Association >-> Z.
Coercion AttributeType_value : AttributeType >-> Z.

(** ** The descriptor record *)

(** The five semantic fields of [struct AttributeDescriptor], in the order of
    the struct.  The three padding words [_pad0.._pad2] are read by no
    function of the header; they occur only in the 32-byte layout. *)
Record AttributeDescriptor : Type := mkDescriptor {
  _association : Z;
  _attribute_type : Z;
  _attribute_type_index : Z;
  _data_arity : Z;
  _data_type : Z;
}.

#[global] Instance AttributeDescriptor_eq_dec : EqDecision AttributeDescriptor.
Proof. solve_decision. Defined.

Module Descriptor.

(** [validate]: four checks in the order of the source, each throwing its
    own message. *)
Definition validate (d : AttributeDescriptor) : result unit :=
  if (_association d <? 0) || (_association d >=? assoc_invalid)
  then Throw (runtime_error "association out of range")
  else if (_attribute_type d <? 0) || (_attribute_type d >=? attr_invalid)
  then Throw (runtime_error "attribute type out of range")
  else if _data_arity d <=? 0
  then Throw (runtime_error "data arity must be greater than zero")
  else if (_data_type d <? 0) || (_data_type d >=? dt_invalid)
  then Throw (runtime_error "data type out of range")
  else Ok tt.

(** The accessors cast the stored integer to the enumeration; the value is
    unchanged. *)
Definition data_type (d : AttributeDescriptor) : Z := _data_type d.
Definition data_arity (d : AttributeDescriptor) : Z := _data_arity d.
Definition association (d : AttributeDescriptor) : Z := _association d.
Definition attribute_type (d : AttributeDescriptor) : Z := _attribute_type d.
Definition attribute_type_index (d : AttributeDescriptor) : Z :=
  _attribute_type_index d.

(** [static int32_t data_type_size(DataType dt)]: the [switch] with its
    throwing [default]. *)
Definition data_type_size_of (dt : Z) : result Z :=
  match dt with
  | 0 => Ok 1
  | 1 => Ok 2
  | 2 => Ok 4
  | 3 => Ok 8
  | 4 => Ok 16
  | 5 => Ok 1
  | 6 => Ok 2
  | 7 => Ok 4
  | 8 => Ok 8
  | 9 => Ok 16
  | 10 => Ok 2
  | 11 => Ok 4
  | 12 => Ok 8
  | 13 => Ok 16
  | _ => Throw (runtime_error "invalid data type")
  end.

(** [int32_t data_type_size() const]. *)
Definition data_type_size (d : AttributeDescriptor) : result Z :=
  data_type_size_of (data_type d).

(** *** The name tables *)

(** Entries of a [std::map] in iteration order, that is by ascending key. *)
Definition key_le {V : Type} (a b : Z * V) : Prop := a.1 <= b.1.

#[global] Instance key_le_dec {V : Type} : RelDecision (@key_le V).
Proof. intros a b. unfold key_le. apply _. Defined.

Definition entries {V : Type} (m : gmap Z V) : list (Z * V) :=
  merge_sort key_le (map_to_list m).

(** The assignment [r[kv.second] = kv.first]. *)
Definition assign (r : gmap string Z) (kv : Z * string) : gmap string Z :=
  <[kv.2 := kv.1]> r.

(** [reverse_map]: the assignment for each entry in turn. *)
Definition reverse_map (m : gmap Z string) : gmap string Z :=
  foldl assign ∅ (entries m).

(** [map::at]: the mapped value, or [std::out_of_range]. *)
Definition at_ {K V : Type} `{Countable K} (m : gmap K V) (k : K) : result V :=
  match m !! k with
  | Some v => Ok v
  | None => Throw out_of_range
  end.

Definition data_types_to_strings : gmap Z string :=
  list_to_map
    [ (dt_uint8 : Z, "uint8");
      (dt_uint16 : Z, "uint16");
      (dt_uint32 : Z, "uint32");
      (dt_uint64 : Z, "uint64");
      (dt_uint128 : Z, "uint128");
      (dt_int8 : Z, "int8");
      (dt_int16 : Z, "int16");
      (dt_int32 : Z, "int32");
      (dt_int64 : Z, "int64");
      (dt_int128 : Z, "int128");
      (dt_float16 : Z, "float16");
      (dt_float32 : Z, "float32");
      (dt_float64 : Z, "float64");
      (dt_float128 : Z, "float128");
      (dt_invalid : Z, "invalid") ].

Definition data_types_from_strings : gmap string Z :=
  reverse_map data_types_to_strings.

Definition associations_to_strings : gmap Z string :=
  list_to_map
    [ (assoc_vertex : Z, "vertex");
      (assoc_face : Z, "face");
      (assoc_corner : Z, "corner");
      (assoc_edge : Z, "edge");
      (assoc_object : Z, "object");
      (assoc_none : Z, "none");
      (assoc_invalid : Z, "invalid") ].

Definition associations_from_strings : gmap string Z :=
  reverse_map associations_to_strings.

(** The table of attribute type names as the source lists it: it has no
    entry for [attr_mapchannel_data] and [attr_mapchannel_index]. *)
Definition attribute_types_to_strings : gmap Z string :=
  list_to_map
    [ (attr_custom : Z, "custom");
      (attr_coordinate : Z, "coordinate");
      (attr_index : Z, "index");
      (attr_faceindex : Z, "faceindex");
      (attr_facesize : Z, "facesize");
      (attr_normal : Z, "normal");
      (attr_binormal : Z, "binormal");
      (attr_tangent : Z, "tangent");
      (attr_materialid : Z, "materialid");
      (attr_polygroup : Z, "polygroup");
      (attr_uv : Z, "uv");
      (attr_color : Z, "color");
      (attr_smoothing : Z, "smoothing");
      (attr_crease : Z, "crease");
      (attr_hole : Z, "hole");
      (attr_invisibility : Z, "invisibility");
      (attr_selection : Z, "selection");
      (attr_pervertex : Z, "pervertex");
      (attr_invalid : Z, "invalid") ].

Definition attribute_types_from_strings : gmap string Z :=
  reverse_map attribute_types_to_strings.

Definition data_type_to_string (dt : Z) : result string :=
  at_ data_types_to_strings dt.
Definition data_type_from_string (s : string) : result Z :=
  at_ data_types_from_strings s.
Definition association_to_string (assoc : Z) : result string :=
  at_ associations_to_strings assoc.
Definition association_from_string (s : string) : result Z :=
  at_ associations_from_strings s.
Definition attribute_type_to_string (attr : Z) : result string :=
  at_ attribute_types_to_strings attr.
Definition attribute_type_from_string (s : string) : result Z :=
  at_ attribute_types_from_strings s.

Definition association_string (d : AttributeDescriptor) : result string :=
  association_to_string (association d).

Definition data_type_string (d : AttributeDescriptor) : result string :=
  data_type_to_string (data_type d).

(** [attribute_type_string] as the source has it: the argument passed to
    [attribute_type_to_string] is [data_type()]. *)
Definition attribute_type_string (d : AttributeDescriptor) : result string :=
  attribute_type_to_string (data_type d).

(** [operator<<] on an [int32_t]: decimal digits, a leading minus sign for a
    negative value. *)
Definition show_int (z : Z) : string := pretty z.

(** What [to_string] writes to its stream [oss]: the six parts joined by
    colons, in stream order.  A name lookup may throw. *)
Definition to_string_stream (d : AttributeDescriptor) : result string :=
  a ← association_string d;
  t ← attribute_type_string d;
  dt ← data_type_string d;
  Ok ("g3d"
        +:+ ":" +:+ a
        +:+ ":" +:+ t
        +:+ ":" +:+ show_int (attribute_type_index d)
        +:+ ":" +:+ dt
        +:+ ":" +:+ show_int (data_arity d)).

(** [to_string]: once the stream is written, [return oss.str();] hands the
    temporary string out as a [const string&].  The temporary is destroyed
    when the function returns, so the reference dangles, and both callers
    in the header copy from it at once ([auto tmp = desc.to_string()],
    [auto name = desc.to_string()]): the call has no defined result.  An
    exception of a name lookup leaves the function before that. *)
Definition to_string (d : AttributeDescriptor) : result string :=
  _ ← to_string_stream d;
  Undefined.

(** *** Tokenising *)

(** One [getline(ss, item, delim)] on a stream whose unread part is not
    empty: the characters up to the first delimiter form the item, the
    delimiter is consumed, the rest stays unread. *)
Fixpoint read_item (ss : string) (delim : ascii) : string * string :=
  match ss with
  | EmptyString => (EmptyString, EmptyString)
  | String c ss' =>
      if Ascii.eqb c delim then (EmptyString, ss')
      else let '(item, rest) := read_item ss' delim in (String c item, rest)
  end.

(** [getline] fails, and ends the loop of [split], when nothing is left to
    read. *)
Definition getline (ss : string) (delim : ascii) : option (string * string) :=
  match ss with
  | EmptyString => None
  | _ => Some (read_item ss delim)
  end.

(** The loop [while (getline(ss, item, delim)) *(result++) = item;].  Each
    turn consumes at least one character, so [S (length s)] turns are
    enough (see [split_loop_tokens]). *)
Fixpoint split_loop (turns : nat) (ss : string) (delim : ascii)
    (elems : list string) : list string :=
  match turns with
  | O => elems
  | S turns' =>
      match getline ss delim with
      | None => elems
      | Some (item, rest) => split_loop turns' rest delim (elems ++ [item])
      end
  end.

Definition split (s : string) (delim : ascii) : list string :=
  split_loop (S (String.length s)) s delim [].

(** The same token list by recursion on the string; used to reason about
    [split]. *)
Fixpoint tokens (s : string) (delim : ascii) : list string :=
  match s with
  | EmptyString => []
  | String c s' =>
      if Ascii.eqb c delim then EmptyString :: tokens s' delim
      else match tokens s' delim with
           | [] => [String c EmptyString]
           | item :: items => String c item :: items
           end
  end.

(** *** [std::stoi] *)

Definition isspace (c : ascii) : bool :=
  let n := N_of_ascii c in
  (n =? 32)%N || ((9 <=? n)%N && (n <=? 13)%N).

Fixpoint skip_spaces (s : string) : string :=
  match s with
  | String c s' => if isspace c then skip_spaces s' else s
  | EmptyString => s
  end.

Definition digit_value (c : ascii) : option Z :=
  let n := Z.of_N (N_of_ascii c) in
  if (48 <=? n) && (n <=? 57) then Some (n - 48) else None.

(** The longest prefix of decimal digits, read most significant digit
    first; [None] when there is no digit at all. *)
Fixpoint read_digits (s : string) (acc : option Z) : option Z :=
  match s with
  | EmptyString => acc
  | String c s' =>
      match digit_value c with
      | Some v => read_digits s' (Some (10 * default 0 acc + v))
      | None => acc
      end
  end.

(** One sign in front of the digits is accepted. *)
Definition strip_sign (s : string) : bool * string :=
  match s with
  | String "-" r => (true, r)
  | String "+" r => (false, r)
  | _ => (false, s)
  end.

(** [stoi(str)]: leading white space is skipped, one sign is accepted, the
    digits that follow are converted and what comes after them is ignored.
    No digit: [invalid_argument]; a value that does not fit an [int]:
    [out_of_range]. *)
Definition stoi (s : string) : result Z :=
  let '(negative, s2) := strip_sign (skip_spaces s) in
  match read_digits s2 None with
  | None => Throw invalid_argument
  | Some n =>
      let v := if negative then - n else n in
      if (INT_MIN <=? v) && (v <=? INT_MAX) then Ok v else Throw out_of_range
  end.

(** *** Parsing *)

Definition insufficient_tokens {A : Type} : result A :=
  Throw (runtime_error "Insufficient tokens").

(** [from_string]: the tokens are consumed left to right; after each field
    the iterator must not have reached the end.  The parsed descriptor is
    validated, then encoded again with [to_string] and compared with the
    input. *)
Definition from_string (s : string) : result AttributeDescriptor :=
  match split s ":" with
  | [] => insufficient_tokens
  | t0 :: ts1 =>
  if negb (String.eqb t0 "g3d") then Throw (runtime_error "Expected g3d") else
  match ts1 with [] => insufficient_tokens | t1 :: ts2 =>
  assoc ← association_from_string t1;
  match ts2 with [] => insufficient_tokens | t2 :: ts3 =>
  attr ← attribute_type_from_string t2;
  match ts3 with [] => insufficient_tokens | t3 :: ts4 =>
  index ← stoi t3;
  match ts4 with [] => insufficient_tokens | t4 :: ts5 =>
  dt ← data_type_from_string t4;
  match ts5 with [] => insufficient_tokens | t5 :: ts6 =>
  arity ← stoi t5;
  let desc :=
    {| _association := assoc; _attribute_type := attr;
       _attribute_type_index := index; _data_arity := arity;
       _data_type := dt |} in
  _ ← validate desc;
  match ts6 with
  | _ :: _ => Throw (runtime_error "Too many tokens")
  | [] =>
  tmp ← to_string desc;
  if negb (String.eqb tmp s)
  then Throw (runtime_error
    "Internal error: parsed attribute descriptor does not match generated attribute descriptor")
  else Ok desc
  end end end end end end end.

End Descriptor.

(** ** Attributes *)

(** [struct Attribute]: a descriptor and the two ends of a byte range. *)
Record Attribute : Type := mkAttribute {
  descriptor : AttributeDescriptor;
  _begin : Z;
  _end : Z;
}.

(** [byte_size]: the pointer difference, converted to [size_t]. *)
Definition byte_size (a : Attribute) : Z := size_t (_end a - _begin a).

(** [data_element_size]: the product is formed in [int32_t] and converted to
    [size_t] on return; [data_type_size] may throw. *)
Definition data_element_size (a : Attribute) : result Z :=
  s ← Descriptor.data_type_size (descriptor a);
  Ok (size_t (int32 (s * Descriptor.data_arity (descriptor a)))).

(** [num_elements]: an unsigned division, undefined for a zero divisor. *)
Definition num_elements (a : Attribute) : result Z :=
  es ← data_element_size a;
  if es =? 0 then Undefined else Ok (byte_size a / es).

(** The constructor [Attribute(desc, begin, end)] with its two checks. *)
Definition new_Attribute (desc : AttributeDescriptor) (begin end_ : Z)
    : result Attribute :=
  let a := {| descriptor := desc; _begin := begin; _end := end_ |} in
  if (begin =? 0) || (end_ =? 0)
  then Throw (runtime_error "Null parameters")
  else
    es ← data_element_size a;
    if es =? 0 then Undefined
    else if negb (byte_size a mod es =? 0)
    then Throw (runtime_error "Data buffer is not the correct alignment")
    else Ok a.

(** ** Attribute builders *)

(** A [T*] argument: its address (0 is [nullptr]) and the bytes that may be
    read from that address on. *)
Record pointer : Type := mkPointer {
  address : Z;
  readable : list byte;
}.

Definition nullptr : pointer := {| address := 0; readable := [] |}.

(** The two classes derived from [AttributeBuilderTypedBase<T>]: one refers
    to external data, the other keeps the data in a vector of its own. *)
Inductive AttributeBuilder : Type :=
| AttributeBuilderRef (attribute : Attribute)
| AttributeBuilderOwn (buffer : list byte) (attribute : Attribute).

Definition GetAttribute (b : AttributeBuilder) : Attribute :=
  match b with
  | AttributeBuilderRef a => a
  | AttributeBuilderOwn _ a => a
  end.

Section Typed.

(** [sizeof(T)] of the template argument. *)
Variable sizeofT : Z.

(** [AttributeBuilderRef(descriptor, begin, end)]. *)
Definition new_AttributeBuilderRef (desc : AttributeDescriptor)
    (begin end_ : Z) : result AttributeBuilder :=
  a ← new_Attribute desc begin end_;
  Ok (AttributeBuilderRef a).

(** [AttributeBuilderOwn(descriptor, size, data)].  The vector member is
    initialised with [size] value-initialised elements of [T] (the
    initialiser is spelled [vector(size)] in the source); [storage] is the
    address [buffer.data()] returns, which the allocator chooses.  The
    attribute spans [buffer.data() .. buffer.data() + size], that is
    [size * sizeof(T)] bytes.  With a source, [memcpy_s(begin(), size, data,
    size)] copies [size] bytes; a source with fewer readable bytes makes the
    copy undefined. *)
Definition new_AttributeBuilderOwn (storage : Z) (desc : AttributeDescriptor)
    (size : Z) (data : pointer) : result AttributeBuilder :=
  let buffer := replicate (Z.to_nat (size * sizeofT)) x00 in
  a ← new_Attribute desc storage (storage + size * sizeofT);
  if address data =? 0 then Ok (AttributeBuilderOwn buffer a)
  else if (Z.of_nat (length (readable data)) <? size) then Undefined
  else
    let n := Z.to_nat size in
    Ok (AttributeBuilderOwn (take n (readable data) ++ drop n buffer) a).

End Typed.

(** ** The attribute collection *)

(** [struct G3d]: the map of builders by name.  The four counts of the
    struct are never assigned nor read (the constructor body is empty) and
    are left out. *)
Record G3d : Type := mkG3d {
  builders : gmap string AttributeBuilder;
}.

Definition empty_G3d : G3d := {| builders := ∅ |}.

(** A member function of [G3d]: its outcome and the object after the call.
    An exception leaves the object as it was when it was thrown. *)
Definition method (A : Type) : Type := G3d -> result A * G3d.

Definition raise {A : Type} (r : result A) : method A := fun g => (r, g).

Definition and_then {A B : Type} (m : method A) (k : A -> method B)
    : method B :=
  fun g =>
    match m g with
    | (Ok a, g') => k a g'
    | (Throw e, g') => (Throw e, g')
    | (Undefined, g') => (Undefined, g')
    end.

Module G3dMethods.

Section Typed.

Variable sizeofT : Z.

(** [add_attribute] on a descriptor, a [size_t] and a pointer to [T].  Its
    first statement copies the name from what [to_string] returns, and the
    statements after it run only with a name.  As written these statements
    are not accepted by a compiler: the end iterator is spelled
    [builder.end()], the owning class [AttributeBuilderVector], the
    insertion [builders.push_back(r)] on a map, and the referring builder is
    given [(desc, size, data)] where its constructor takes two pointers.
    They are read here as [builders.end()], [AttributeBuilderOwn], the
    insertion of [r] under [name], and the range of the [size] values of [T]
    at [data] ([storage] is the address of the vector of an owning
    builder).  Since [to_string] never hands out a name, no outcome of
    [add_attribute] depends on this reading. *)
Definition add_attribute (storage : Z) (desc : AttributeDescriptor)
    (size : Z) (data : pointer) : method AttributeBuilder :=
  fun g =>
    match Descriptor.to_string desc with
    | Ok name =>
        if decide (is_Some (builders g !! name))
        then (Throw (runtime_error "Attribute descriptor already exists"), g)
        else
          let made :=
            if negb (address data =? 0)
            then new_AttributeBuilderRef desc
                   (address data) (address data + size * sizeofT)
            else new_AttributeBuilderOwn sizeofT storage desc size data in
          match made with
          | Ok r => (Ok r, {| builders := <[name := r]> (builders g) |})
          | Throw e => (Throw e, g)
          | Undefined => (Undefined, g)
          end
    | Throw e => (Throw e, g)
    | Undefined => (Undefined, g)
    end.

(** [add_attribute] on a descriptor string: parse, then add. *)
Definition add_attribute_string (storage : Z) (desc : string) (size : Z)
    (data : pointer) : method AttributeBuilder :=
  and_then (raise (Descriptor.from_string desc))
    (fun d => add_attribute storage d size data).

End Typed.

Definition sizeof_float : Z := 4.
Definition sizeof_int : Z := 4.

(** The helpers take an [int size], which is converted to [size_t] at the
    call of [add_attribute]. *)
Definition add_vertices (storage size : Z) (data : pointer)
    : method AttributeBuilder :=
  add_attribute_string sizeof_float storage
    "g3d:vertex:coordinate:0:float32:3" (size_t size) data.

Definition add_vertices_as_float4 (storage size : Z) (data : pointer)
    : method AttributeBuilder :=
  add_attribute_string sizeof_float storage
    "g3d:vertex:coordinate:0:float32:4" (size_t size) data.

Definition add_indexes (storage size : Z) (data : pointer)
    : method AttributeBuilder :=
  add_attribute_string sizeof_int storage
    "g3d:corner:index:0:int32:1" (size_t size) data.

Definition add_uvs (storage size : Z) (data : pointer)
    : method AttributeBuilder :=
  add_attribute_string sizeof_float storage
    "g3d:vertex:uv:0:float32:2" (size_t size) data.

Definition add_uv2s (storage size : Z) (data : pointer)
    : method AttributeBuilder :=
  add_attribute_string sizeof_float storage
    "g3d:vertex:uv:1:float32:2" (size_t size) data.

Definition add_vertex_normals (storage size : Z) (data : pointer)
    : method AttributeBuilder :=
  add_attribute_string sizeof_float storage
    "g3d:vertex:uv:0:float32:3" (size_t size) data.

(** [add_material_ids] takes a [float*], so its [T] is [float]. *)
Definition add_material_ids (storage size : Z) (data : pointer)
    : method AttributeBuilder :=
  add_attribute_string sizeof_float storage
    "g3d:face:material_id:0:int32:1" (size_t size) data.

Definition set_attribute_type_index (d : AttributeDescriptor) (id : Z)
    : AttributeDescriptor :=
  {| _association := _association d; _attribute_type := _attribute_type d;
     _attribute_type_index := id; _data_arity := _data_arity d;
     _data_type := _data_type d |}.

Definition add_map_channel_data (storage id size : Z) (data : pointer)
    : method AttributeBuilder :=
  and_then
    (raise (Descriptor.from_string "g3d:none:map_channel_data:0:float32:3"))
    (fun desc =>
       add_attribute sizeof_float storage
         (set_attribute_type_index desc id) (size_t size) data).

Definition add_map_channel_index (storage id size : Z) (data : pointer)
    : method AttributeBuilder :=
  and_then
    (raise (Descriptor.from_string "g3d:corner:map_channel_index:0:int32:1"))
    (fun desc =>
       add_attribute sizeof_int storage
         (set_attribute_type_index desc id) (size_t size) data).

(** [add_map_channel]: the two counts are multiplied by three in [size_t]
    and narrowed to the [int] parameter of the two helpers. *)
Definition add_map_channel (storage1 storage2 id : Z)
    (texture_vertices : pointer) (num_texture_vertices : Z)
    (texture_indices : pointer) (num_texture_faces : Z) : method unit :=
  and_then
    (add_map_channel_data storage1 id
       (int32 (size_t (num_texture_vertices * 3))) texture_vertices)
    (fun _ =>
       and_then
         (add_map_channel_index storage2 id
            (int32 (size_t (num_texture_faces * 3))) texture_indices)
         (fun _ => raise (Ok tt))).

End G3dMethods.

(** ** Container framing *)

(** The header describes the container in its opening comment (array 0 the
    meta-information, array 1 the descriptors of 32 bytes each, then a data
    and an index array per attribute) but contains no function that writes
    or reads it.  The writer and the reader below follow the specification
    of the format; the descriptor layout, [validate], [data_type_size] and
    the name tables they rely on are the ones of the header. *)
Module Container.

(** Modelled from the spec: the error kinds of the framing layer, which the
    header does not define ([ArrayCountMismatchError], [AlignmentError],
    [DuplicateAttributeError], [MalformedError]); an exception of the
    header's own functions is passed on as [DescriptorError]. *)
Inductive FramingError : Type :=
| ArrayCountMismatchError
| AlignmentError
| DuplicateAttributeError
| MalformedError
| DescriptorError (e : option exception).

Definition framed (A : Type) : Type := FramingError + A.

#[global] Instance framed_bind : MBind (sum FramingError) :=
  fun A B k r => match r with inl e => inl e | inr a => k a end.

Definition of_result {A : Type} (r : result A) : framed A :=
  match r with
  | Ok a => inr a
  | Throw e => inl (DescriptorError (Some e))
  | Undefined => inl (DescriptorError None)
  end.

(** One byte of a two's complement integer, and back. *)
Definition byte_of_Z (z : Z) : byte :=
  default x00 (Byte.of_N (Z.to_N (z mod 256))).

Definition Z_of_byte (b : byte) : Z := Z.of_N (Byte.to_N b).

(** Modelled from the spec: a descriptor field on the wire, a 4-byte signed
    integer, least significant byte first. *)
Definition write_int32 (z : Z) : list byte :=
  [ byte_of_Z z; byte_of_Z (Z.shiftr z 8);
    byte_of_Z (Z.shiftr z 16); byte_of_Z (Z.shiftr z 24) ].

Definition read_int32 (bs : list byte) : Z :=
  match bs with
  | [b0; b1; b2; b3] =>
      int32 (Z.lor (Z_of_byte b0)
              (Z.lor (Z.shiftl (Z_of_byte b1) 8)
                (Z.lor (Z.shiftl (Z_of_byte b2) 16)
                       (Z.shiftl (Z_of_byte b3) 24))))
  | _ => 0
  end.

(** Modelled from the spec: the 32-byte record, the five fields in the order
    of the struct of the header followed by three reserved words, written as
    zero and ignored on read. *)
Definition encode_descriptor (d : AttributeDescriptor) : list byte :=
  write_int32 (_association d) ++ write_int32 (_attribute_type d)
  ++ write_int32 (_attribute_type_index d) ++ write_int32 (_data_arity d)
  ++ write_int32 (_data_type d) ++ replicate 12 x00.

Definition field (bs : list byte) (i : nat) : Z :=
  read_int32 (take 4 (drop (4 * i) bs)).

Definition decode_descriptor (bs : list byte) : AttributeDescriptor :=
  {| _association := field bs 0; _attribute_type := field bs 1;
     _attribute_type_index := field bs 2; _data_arity := field bs 3;
     _data_type := field bs 4 |}.

(** Modelled from the spec: what the collection holds for one attribute as
    far as the container is concerned, its descriptor, its data bytes and
    its index bytes (empty when the data needs no indirection). *)
Record Channel : Type := mkChannel {
  channel_descriptor : AttributeDescriptor;
  channel_data : list byte;
  channel_index : list byte;
}.

(** Modelled from the spec: the collection with its keys in insertion
    order, as the writer needs it. *)
Definition Collection : Type := list (string * Channel).

Definition keys (c : Collection) : list string := c.*1.

(** Modelled from the spec: the write contract.  Array 0 is the metadata,
    array 1 the descriptors in key order, then for each key its data array
    followed by its index array. *)
Definition write (metadata : list byte) (c : Collection) : list (list byte) :=
  metadata
  :: concat (map (fun kv => encode_descriptor (channel_descriptor kv.2)) c)
  :: flat_map (fun kv => [channel_data kv.2; channel_index kv.2]) c.

(** Modelled from the spec: array 1 cut into its 32-byte records. *)
Fixpoint records (n : nat) (table : list byte) : list (list byte) :=
  match n with
  | O => []
  | S n' => take 32 table :: records n' (drop 32 table)
  end.

(** Modelled from the spec: one record decoded and validated. *)
Definition read_descriptor (record : list byte) : framed AttributeDescriptor :=
  let d := decode_descriptor record in
  _ ← of_result (Descriptor.validate d);
  inr d.

Fixpoint read_descriptors (rs : list (list byte))
    : framed (list AttributeDescriptor) :=
  match rs with
  | [] => inr []
  | r :: rs' =>
      d ← read_descriptor r;
      ds ← read_descriptors rs';
      inr (d :: ds)
  end.

(** Modelled from the spec: the name of an attribute type in the canonical
    string.  The spec's registry of attribute types is the one of the
    header's table together with the two map channel roles, which the
    header's table leaves out. *)
Definition registry_attribute_type_name (t : Z) : result string :=
  if t =? attr_mapchannel_data then Ok "mapchannel_data"
  else if t =? attr_mapchannel_index then Ok "mapchannel_index"
  else Descriptor.attribute_type_to_string t.

(** Modelled from the spec: the canonical string of a descriptor,
    [g3d:<association>:<attribute_type>:<attribute_type_index>:<data_type>:<data_arity>],
    with the names of the registries and the two numbers in base 10. *)
Definition canonical_string (d : AttributeDescriptor) : result string :=
  a ← Descriptor.association_to_string (_association d);
  t ← registry_attribute_type_name (_attribute_type d);
  dt ← Descriptor.data_type_to_string (_data_type d);
  Ok ("g3d"
        +:+ ":" +:+ a
        +:+ ":" +:+ t
        +:+ ":" +:+ Descriptor.show_int (_attribute_type_index d)
        +:+ ":" +:+ dt
        +:+ ":" +:+ Descriptor.show_int (_data_arity d)).

(** Modelled from the spec: descriptor [i] is paired with arrays [2+2i] and
    [2+2i+1]; the data array must be a whole number of elements; the
    attribute is added under its canonical string, which must be new. *)
Fixpoint read_channels (ds : list AttributeDescriptor)
    (arrays : list (list byte)) (c : Collection) : framed Collection :=
  match ds, arrays with
  | [], _ => inr c
  | d :: ds', data :: index :: arrays' =>
      es ← of_result
             (data_element_size
                {| descriptor := d; _begin := 0; _end := 0 |});
      if (es =? 0) || negb (Z.of_nat (length data) mod es =? 0)
      then inl AlignmentError
      else
        key ← of_result (canonical_string d);
        if decide (key ∈ keys c) then inl DuplicateAttributeError
        else
          read_channels ds' arrays'
            (c ++ [(key, {| channel_descriptor := d; channel_data := data;
                            channel_index := index |})])%list
  | _ :: _, _ => inl ArrayCountMismatchError
  end.

(** Modelled from the spec: the read contract. *)
Definition read (arrays : list (list byte))
    : framed (list byte * Collection) :=
  match arrays with
  | metadata :: table :: rest =>
      ds ← read_descriptors (records (length table / 32) table);
      if negb (length arrays =? 2 + 2 * length ds)%nat
      then inl ArrayCountMismatchError
      else
        c ← read_channels ds rest [];
        inr (metadata, c)
  | _ => inl ArrayCountMismatchError
  end.

End Container.

(** * Vocabulary of the properties *)

Import Descriptor G3dMethods Container.

(** The messages of the exceptions, the error kinds they stand for, and the
    descriptors and collections of the scenarios the properties speak
    about. *)

(** The error kinds of the format, told apart by the message [validate]
    throws. *)
Definition RangeError (e : exception) : Prop :=
  e = runtime_error "association out of range"
  \/ e = runtime_error "attribute type out of range"
  \/ e = runtime_error "data type out of range".

Definition ArityError (e : exception) : Prop :=
  e = runtime_error "data arity must be greater than zero".

Definition fails_with {A : Type} (r : result A) (P : exception -> Prop)
    : Prop :=
  exists e, r = Throw e /\ P e.

Definition in_span (v bound : Z) : Prop := 0 <= v < bound.

(** An enum field of the descriptor lies outside the span of its enum. *)
Definition enum_out_of_span (d : AttributeDescriptor) : Prop :=
  ~ in_span (_association d) assoc_invalid
  \/ ~ in_span (_attribute_type d) attr_invalid
  \/ ~ in_span (_data_type d) dt_invalid.

Definition alignment_error : exception :=
  runtime_error "Data buffer is not the correct alignment".

Definition already_exists : exception :=
  runtime_error "Attribute descriptor already exists".

(** The descriptors of the first and of the second UV set of the vertices:
    two floats per vertex. *)
Definition uv_set (index : Z) : AttributeDescriptor :=
  mkDescriptor assoc_vertex attr_uv index 2 dt_float32.

(** The descriptor of the ownership scenario: one [uint32] per element. *)
Definition uint32_scalar : AttributeDescriptor :=
  mkDescriptor assoc_vertex attr_custom 0 1 dt_uint32.

Definition vertex_coordinates : AttributeDescriptor :=
  mkDescriptor assoc_vertex attr_coordinate 0 3 dt_float32.

Definition corner_indices : AttributeDescriptor :=
  mkDescriptor assoc_corner attr_index 0 1 dt_int32.

(** The collection of the scenario: vertex coordinates and corner indices,
    data only, under the keys the scenario names. *)
Definition scenario (data0 data1 : list byte) : Collection :=
  [ ("g3d:vertex:coordinate:0:float32:3",
     mkChannel vertex_coordinates data0 []);
    ("g3d:corner:index:0:int32:1",
     mkChannel corner_indices data1 []) ].

(** No character of the string is the delimiter. *)
Fixpoint lacks (delim : ascii) (s : string) : bool :=
  match s with
  | EmptyString => true
  | String c s' => negb (Ascii.eqb c delim) && lacks delim s'
  end.

(** The descriptor with the value of the data type in the place of the
    attribute type. *)
Definition with_data_type_as_attribute_type (d : AttributeDescriptor)
    : AttributeDescriptor :=
  {| _association := _association d; _attribute_type := _data_type d;
     _attribute_type_index := _attribute_type_index d;
     _data_arity := _data_arity d; _data_type := _data_type d |}.

(** The tokens put together again, with the delimiter between them. *)
Fixpoint join (delim : ascii) (ts : list string) : string :=
  match ts with
  | [] => EmptyString
  | t :: ts' =>
      match ts' with
      | [] => t
      | _ :: _ => t +:+ String delim (join delim ts')
      end
  end.

(** The last character of the string is the delimiter. *)
Fixpoint ends_with (delim : ascii) (s : string) : bool :=
  match s with
  | EmptyString => false
  | String c s' =>
      match s' with
      | EmptyString => Ascii.eqb c delim
      | String _ _ => ends_with delim s'
      end
  end.

(** The six tokens of the string of a descriptor, given the three names. *)
Definition descriptor_tokens (a t dt : string) (d : AttributeDescriptor)
    : list string :=
  ["g3d"; a; t; show_int (_attribute_type_index d); dt;
   show_int (_data_arity d)].

(** The six tokens with colons between them. *)
Definition descriptor_text (a t dt : string) (d : AttributeDescriptor)
    : string :=
  "g3d" +:+ ":" +:+ a +:+ ":" +:+ t
  +:+ ":" +:+ show_int (_attribute_type_index d)
  +:+ ":" +:+ dt +:+ ":" +:+ show_int (_data_arity d).

Definition insufficient : exception := runtime_error "Insufficient tokens".

(** The fields of a descriptor are what the six tokens after the split say:
    the first token is "g3d", the names are known, the numbers are read by
    [stoi]. *)
Definition tokens_parse_to (ts : list string) (d : AttributeDescriptor)
    : Prop :=
  exists t1 t2 t3 t4 t5,
    ts = ["g3d"; t1; t2; t3; t4; t5]
    /\ association_from_string t1 = Ok (_association d)
    /\ attribute_type_from_string t2 = Ok (_attribute_type d)
    /\ stoi t3 = Ok (_attribute_type_index d)
    /\ data_type_from_string t4 = Ok (_data_type d)
    /\ stoi t5 = Ok (_data_arity d).

(** The association and the data type of the descriptor have a name. *)
Definition names_in_tables (d : AttributeDescriptor) : Prop :=
  0 <= _association d <= assoc_invalid /\ 0 <= _data_type d <= dt_invalid.

Definition too_many_tokens : exception := runtime_error "Too many tokens".

Definition expected_g3d : exception := runtime_error "Expected g3d".

Definition null_parameters : exception := runtime_error "Null parameters".

(** The exceptions of [from_string]. *)
Definition from_string_exception (e : exception) : Prop :=
  e = insufficient \/ e = expected_g3d \/ e = too_many_tokens
  \/ e = out_of_range \/ e = invalid_argument
  \/ RangeError e \/ ArityError e.

(** The values an [int32_t] can hold. *)
Definition is_int32 (z : Z) : Prop := INT_MIN <= z <= INT_MAX.

(** * Properties *)

(** ** Size table *)

(** C2.  [data_type_size] gives every data type other than [dt_invalid] its
    byte width: 1, 2, 4, 8, 16 for the unsigned and for the signed integers
    of 8 to 128 bits, and 2, 4, 8, 16 for the floats of 16 to 128 bits.  For
    [dt_invalid], and for every integer that is not the value of one of the
    fourteen sized types, it throws. *)
Theorem data_type_size_table :
  (forall dt : DataType,
     data_type_size_of dt =
     match dt with
     | dt_uint8 => Ok 1 | dt_uint16 => Ok 2 | dt_uint32 => Ok 4
     | dt_uint64 => Ok 8 | dt_uint128 => Ok 16
     | dt_int8 => Ok 1 | dt_int16 => Ok 2 | dt_int32 => Ok 4
     | dt_int64 => Ok 8 | dt_int128 => Ok 16
     | dt_float16 => Ok 2 | dt_float32 => Ok 4 | dt_float64 => Ok 8
     | dt_float128 => Ok 16
     | dt_invalid => Throw (runtime_error "invalid data type")
     end)
  /\ (forall (d : AttributeDescriptor) (dt : DataType),
        _data_type d = dt -> data_type_size d = data_type_size_of dt)
  /\ (forall z : Z,
        data_type_size_of z = Throw (runtime_error "invalid data type")
        <-> (z < 0 \/ dt_invalid <= z)).
Proof.
  split; [by intros []|]. split.
  { intros d dt Hd. unfold data_type_size, data_type. by rewrite Hd. }
  intros z. split.
  - destruct z as [|p|p]; simpl; [discriminate| |lia].
    do 4 (try destruct p as [p|p|]; try discriminate; try lia).
  - intros [Hz|Hz]; destruct z as [|p|p]; simpl in *; try lia; try done.
    do 4 (try destruct p as [p|p|]; try done; try lia).
Qed.

Lemma data_type_size_table_witness :
  _data_type (mkDescriptor assoc_vertex attr_coordinate 0 3 dt_float32)
    = dt_float32
  /\ data_type_size (mkDescriptor assoc_vertex attr_coordinate 0 3 dt_float32)
     = data_type_size_of dt_float32.
Proof.
  split; [reflexivity|].
  apply (proj1 (proj2 data_type_size_table)). reflexivity.
Defined.

(** ** Validation *)

(** [validate] as a cascade of decisions on the four conditions. *)
Lemma validate_cascade (d : AttributeDescriptor) :
  validate d =
  if decide (in_span (_association d) assoc_invalid) then
    if decide (in_span (_attribute_type d) attr_invalid) then
      if decide (0 < _data_arity d) then
        if decide (in_span (_data_type d) dt_invalid) then Ok tt
        else Throw (runtime_error "data type out of range")
      else Throw (runtime_error "data arity must be greater than zero")
    else Throw (runtime_error "attribute type out of range")
  else Throw (runtime_error "association out of range").
Proof.
  unfold validate, in_span. simpl.
  rewrite !Z.geb_leb.
  repeat case_decide;
    repeat match goal with
    | |- context [ (?a <? ?b) ] => destruct (Z.ltb_spec a b)
    | |- context [ (?a <=? ?b) ] => destruct (Z.leb_spec a b)
    end; simpl; try reflexivity; lia.
Qed.

(** [validate] accepts exactly the descriptors with the three enum fields
    in span and a positive arity. *)
Lemma validate_Ok (d : AttributeDescriptor) :
  validate d = Ok tt
  <-> in_span (_association d) assoc_invalid
      /\ in_span (_attribute_type d) attr_invalid
      /\ in_span (_data_type d) dt_invalid
      /\ 0 < _data_arity d.
Proof.
  rewrite validate_cascade.
  repeat case_decide; split; try discriminate; tauto.
Qed.

Lemma fails_with_Throw {A : Type} (e : exception) (P : exception -> Prop) :
  fails_with (@Throw A e) P <-> P e.
Proof.
  split.
  - intros (e' & He & HP). by injection He as ->.
  - intros HP. by exists e.
Qed.

Lemma fails_with_Ok {A : Type} (a : A) (P : exception -> Prop) :
  ~ fails_with (Ok a) P.
Proof. by intros (e & He & _). Qed.

(** C9, as stated, at the descriptor with association [-1] and arity [0]:
    the arity is not positive, yet the error is the range error of the
    association, which is checked first. *)
Lemma validate_arity_exactly_counterexample :
  let d := mkDescriptor (-1) attr_custom 0 0 dt_uint8 in
  ~ (fails_with (validate d) ArityError <-> _data_arity d <= 0).
Proof.
  intros d [_ H]. destruct H as (e & He & Ha); [simpl; lia|].
  vm_compute in He. unfold ArityError in Ha. congruence.
Qed.

(** C9, amended.  [validate] succeeds exactly when association, attribute
    type and data type are within the span of their enum and the arity is
    positive.  Otherwise the first failing check, in the order association,
    attribute type, arity, data type, decides the error: a range error
    exactly when the association or the attribute type is out of span, or
    both are in span, the arity is positive and the data type is out of
    span; an arity error exactly when association and attribute type are in
    span and the arity is not positive. *)
Theorem validate_first_failing_check (d : AttributeDescriptor) :
  (validate d = Ok tt <-> ~ enum_out_of_span d /\ 0 < _data_arity d)
  /\ (fails_with (validate d) RangeError
      <-> ~ in_span (_association d) assoc_invalid
          \/ ~ in_span (_attribute_type d) attr_invalid
          \/ (0 < _data_arity d /\ ~ in_span (_data_type d) dt_invalid))
  /\ (fails_with (validate d) ArityError
      <-> in_span (_association d) assoc_invalid
          /\ in_span (_attribute_type d) attr_invalid
          /\ _data_arity d <= 0)
  /\ (validate d = Ok tt
      \/ fails_with (validate d) RangeError
      \/ fails_with (validate d) ArityError).
Proof.
  rewrite validate_cascade. unfold enum_out_of_span.
  repeat case_decide;
    rewrite ?fails_with_Throw;
    unfold RangeError, ArityError;
    (split; [|split; [|split]]);
    try (split; intros; try discriminate; tauto);
    try (split; [intros H'; exfalso; by apply (fails_with_Ok _ _ H')|]);
    try (split; [intros H'|]);
    try tauto; try lia;
    try (intuition (try discriminate; try lia); fail).
Qed.

(** ** Alignment *)

(** The constructor, once the bounds are not null and the element size is
    known and not zero: it succeeds when the byte size is a multiple of the
    element size and throws the alignment error otherwise. *)
Lemma new_Attribute_checked (desc : AttributeDescriptor) (begin end_ es : Z) :
  begin <> 0 -> end_ <> 0 ->
  data_element_size (mkAttribute desc begin end_) = Ok es -> es <> 0 ->
  new_Attribute desc begin end_ =
  if decide (byte_size (mkAttribute desc begin end_) mod es = 0)
  then Ok (mkAttribute desc begin end_)
  else Throw alignment_error.
Proof.
  intros Hb He Hes Hnz. unfold new_Attribute.
  destruct (Z.eqb_spec begin 0); [done|].
  destruct (Z.eqb_spec end_ 0); [done|]. simpl.
  rewrite Hes. simpl.
  destruct (Z.eqb_spec es 0); [done|].
  case_decide as Hm.
  - rewrite Hm. reflexivity.
  - destruct (Z.eqb_spec (byte_size (mkAttribute desc begin end_) mod es) 0);
      [done|reflexivity].
Qed.







(** ** Registries *)

Section ReverseMap.

Implicit Types (m : gmap Z string) (r : gmap string Z) (l : list (Z * string)).

Lemma foldl_assign_Some l r s v :
  foldl assign r l !! s = Some v -> r !! s = Some v \/ (v, s) ∈ l.
Proof.
  revert r. induction l as [|[k n] l IH]; intros r H; simpl in *.
  - by left.
  - apply IH in H as [H|H].
    + unfold assign in H. simpl in H.
      destruct (decide (n = s)) as [->|Hne].
      * rewrite lookup_insert_eq in H. injection H as ->.
        right. apply elem_of_cons. by left.
      * rewrite lookup_insert_ne in H by done. by left.
    + right. apply elem_of_cons. by right.
Qed.

Lemma foldl_assign_None l r s :
  foldl assign r l !! s = None <-> r !! s = None /\ forall v, (v, s) ∉ l.
Proof.
  revert r. induction l as [|[k n] l IH]; intros r; simpl.
  - split; [intros H; split; [done|]; intros v Hv; by apply elem_of_nil in Hv
           |by intros [H _]].
  - rewrite IH. unfold assign. simpl. split.
    + intros [H Hl]. destruct (decide (n = s)) as [->|Hne].
      * by rewrite lookup_insert_eq in H.
      * rewrite lookup_insert_ne in H by done. split; [done|].
        intros v Hv. apply elem_of_cons in Hv as [Hv|Hv].
        -- injection Hv as _ ->. done.
        -- by apply (Hl v).
    + intros [H Hl]. split.
      * destruct (decide (n = s)) as [->|Hne].
        -- exfalso. apply (Hl k), elem_of_cons. by left.
        -- by rewrite lookup_insert_ne.
      * intros v Hv. apply (Hl v), elem_of_cons. by right.
Qed.

Lemma elem_of_entries m k n : (k, n) ∈ entries m <-> m !! k = Some n.
Proof.
  unfold entries. rewrite merge_sort_Permutation.
  apply elem_of_map_to_list.
Qed.

(** A name found in the reversed table is the name of the value found. *)
Lemma reverse_map_Some m s v :
  reverse_map m !! s = Some v -> m !! v = Some s.
Proof.
  unfold reverse_map. intros H.
  apply foldl_assign_Some in H as [H|H].
  - by rewrite lookup_empty in H.
  - by apply elem_of_entries.
Qed.

(** The reversed table has no entry exactly for the strings that name no
    value. *)
Lemma reverse_map_None m s :
  reverse_map m !! s = None <-> forall v, m !! v <> Some s.
Proof.
  unfold reverse_map. rewrite foldl_assign_None. split.
  - intros [_ H] v Hv. apply (H v). by apply elem_of_entries.
  - intros H. split; [apply lookup_empty|].
    intros v Hv. apply (H v). by apply elem_of_entries.
Qed.

Lemma at_reverse_map_unknown m s :
  at_ (reverse_map m) s = Throw out_of_range <-> forall v, m !! v <> Some s.
Proof.
  rewrite <- reverse_map_None. unfold at_.
  destruct (reverse_map m !! s); split; done.
Qed.

End ReverseMap.

(** C3, evaluated on the code.  The tables of data types and of
    associations give every enumerator a name, and the name leads back to
    the enumerator.  The table of attribute types does so for all
    enumerators but [attr_mapchannel_data] and [attr_mapchannel_index]: it
    has no entry for them, and asking for their name throws
    [out_of_range].  In all three registries the value of a string throws
    [out_of_range] exactly when the string is the name of no value. *)
Theorem registries_names_and_values :
  (forall dt : DataType,
     exists s, data_type_to_string dt = Ok s
               /\ data_type_from_string s = Ok (dt : Z))
  /\ (forall a : Association,
        exists s, association_to_string a = Ok s
                  /\ association_from_string s = Ok (a : Z))
  /\ (forall t : AttributeType,
        match t with
        | attr_mapchannel_data | attr_mapchannel_index =>
            attribute_type_to_string t = Throw out_of_range
        | _ =>
            exists s, attribute_type_to_string t = Ok s
                      /\ attribute_type_from_string s = Ok (t : Z)
        end)
  /\ (forall s : string,
        (data_type_from_string s = Throw out_of_range
         <-> forall v, data_types_to_strings !! v <> Some s)
        /\ (association_from_string s = Throw out_of_range
            <-> forall v, associations_to_strings !! v <> Some s)
        /\ (attribute_type_from_string s = Throw out_of_range
            <-> forall v, attribute_types_to_strings !! v <> Some s)).
Proof.
  split; [|split; [|split]].
  - intros []; eexists; (split; [vm_compute; reflexivity|]);
      vm_compute; reflexivity.
  - intros []; eexists; (split; [vm_compute; reflexivity|]);
      vm_compute; reflexivity.
  - intros []; try (vm_compute; reflexivity);
      eexists; (split; [vm_compute; reflexivity|]); vm_compute; reflexivity.
  - intros s. repeat split; try apply at_reverse_map_unknown.
Qed.

(** ** Owning builders *)

(** A constructed attribute is the descriptor over the given range. *)
Lemma new_Attribute_Ok (desc : AttributeDescriptor) (b e : Z) (a : Attribute) :
  new_Attribute desc b e = Ok a -> a = mkAttribute desc b e.
Proof.
  unfold new_Attribute.
  destruct ((b =? 0) || (e =? 0)); [discriminate|].
  destruct (data_element_size _) as [es| |]; simpl; try discriminate.
  destruct (es =? 0); [discriminate|].
  destruct (negb _); [discriminate|]. by intros [= <-].
Qed.





(** ** Tokens *)

(** [split] has turns enough: it returns the tokens of the whole string. *)

Lemma read_item_tokens (c : ascii) (ss : string) (delim : ascii) :
  tokens (String c ss) delim
  = (read_item (String c ss) delim).1
    :: tokens (read_item (String c ss) delim).2 delim
  /\ (String.length (read_item (String c ss) delim).2 <= String.length ss)%nat.
Proof.
  revert c. induction ss as [|c' ss IH]; intros c.
  - simpl. destruct (Ascii.eqb c delim); simpl; split; done.
  - specialize (IH c'). destruct IH as [IH1 IH2].
    cbn [tokens read_item] in *.
    destruct (Ascii.eqb c delim); [simpl; split; [done|lia]|].
    destruct (Ascii.eqb c' delim).
    + simpl in *. split; [done|lia].
    + destruct (read_item ss delim) as [item rest]. simpl in *.
      rewrite IH1. split; [done|lia].
Qed.

Lemma split_loop_tokens (turns : nat) (ss : string) (delim : ascii)
    (elems : list string) :
  (String.length ss < turns)%nat ->
  split_loop turns ss delim elems = (elems ++ tokens ss delim)%list.
Proof.
  revert ss elems. induction turns as [|turns IH]; intros ss elems Hlt;
    [lia|].
  destruct ss as [|c ss].
  - simpl. by rewrite app_nil_r.
  - cbn [split_loop getline].
    destruct (read_item_tokens c ss delim) as [Ht Hl].
    destruct (read_item (String c ss) delim) as [item rest].
    cbn [fst snd] in *.
    rewrite IH by (simpl in Hlt; lia).
    rewrite Ht. by rewrite <- app_assoc.
Qed.

Lemma split_tokens (s : string) (delim : ascii) :
  split s delim = tokens s delim.
Proof. unfold split. by rewrite split_loop_tokens by lia. Qed.

Lemma tokens_lacks (a : string) (delim : ascii) :
  lacks delim a = true -> a <> EmptyString -> tokens a delim = [a].
Proof.
  induction a as [|c a IH]; intros Hl Hne; [done|].
  simpl in Hl. apply andb_prop in Hl as [Hc Ha].
  apply negb_true_iff in Hc. cbn [tokens]. rewrite Hc.
  destruct a as [|c' a]; [done|].
  rewrite IH by done. done.
Qed.

Lemma tokens_append (a rest : string) (delim : ascii) :
  lacks delim a = true ->
  tokens (a +:+ String delim rest) delim = a :: tokens rest delim.
Proof.
  induction a as [|c a IH]; intros Hl.
  - simpl. by rewrite Ascii.eqb_refl.
  - simpl in Hl. apply andb_prop in Hl as [Hc Ha].
    apply negb_true_iff in Hc.
    change (String c a +:+ String delim rest)
      with (String c (a +:+ String delim rest)).
    cbn [tokens]. rewrite Hc. by rewrite IH.
Qed.

(** ** Decimal digits *)

Lemma pretty_N_char_digit (n : N) :
  (n < 10)%N ->
  digit_value (pretty_N_char n) = Some (Z.of_N n)
  /\ Ascii.eqb (pretty_N_char n) ":" = false
  /\ isspace (pretty_N_char n) = false
  /\ forall rest,
       strip_sign (String (pretty_N_char n) rest)
       = (false, String (pretty_N_char n) rest).
Proof.
  intros Hn. destruct n as [|p]; [by vm_compute|].
  do 4 (try destruct p as [p|p|]); try lia; by vm_compute.
Qed.

Lemma lacks_pretty_N_go (x : N) (s : string) :
  lacks ":" (pretty_N_go x s) = lacks ":" s.
Proof.
  revert s. induction (N.lt_wf_0 x) as [x _ IH]; intros s.
  destruct (decide (x = 0)%N) as [->|Hx]; [by rewrite pretty_N_go_0|].
  rewrite pretty_N_go_step by lia.
  rewrite IH by (apply N.div_lt; lia).
  cbn [lacks].
  destruct (pretty_N_char_digit (x `mod` 10)) as (_ & -> & _);
    [by apply N.mod_lt|done].
Qed.

(** The digits of a positive number start with a digit. *)
Lemma pretty_N_go_head (x : N) (s : string) :
  (0 < x)%N ->
  exists n rest, (n < 10)%N /\ pretty_N_go x s = String (pretty_N_char n) rest.
Proof.
  revert s. induction (N.lt_wf_0 x) as [x _ IH]; intros s Hx.
  rewrite pretty_N_go_step by lia.
  destruct (decide (x `div` 10 = 0)%N) as [->|Hd].
  - rewrite pretty_N_go_0. exists (x `mod` 10)%N, s.
    split; [by apply N.mod_lt|done].
  - apply IH; [apply N.div_lt; lia|by apply N.neq_0_lt_0].
Qed.

(** Reading back the digits of a positive number appends them to what has
    been read. *)
Lemma read_digits_pretty_N_go (x : N) (s : string) (acc : option Z) :
  (0 < x)%N ->
  exists k, 0 <= k
    /\ read_digits (pretty_N_go x s) acc
       = read_digits s (Some (default 0 acc * 10 ^ k + Z.of_N x)).
Proof.
  revert s acc. induction (N.lt_wf_0 x) as [x _ IH]; intros s acc Hx.
  rewrite pretty_N_go_step by lia.
  destruct (pretty_N_char_digit (x `mod` 10)) as (Hd & _);
    [by apply N.mod_lt|].
  assert (Hx10 : Z.of_N x = 10 * Z.of_N (x `div` 10) + Z.of_N (x `mod` 10)).
  { rewrite (N.div_mod x 10) at 1 by done.
    rewrite N2Z.inj_add, N2Z.inj_mul. reflexivity. }
  destruct (decide (x `div` 10 = 0)%N) as [Hz|Hnz].
  - rewrite Hz in *. rewrite pretty_N_go_0. exists 1. split; [lia|].
    cbn [read_digits]. rewrite Hd. do 2 f_equal. rewrite Hx10.
    generalize (Z.of_N (x `mod` 10)) (default 0 acc). intros. lia.
  - destruct (IH (x `div` 10)%N) with
      (s := String (pretty_N_char (x `mod` 10)) s) (acc := acc)
      as (k & Hk & ->); [apply N.div_lt; lia|by apply N.neq_0_lt_0|].
    exists (k + 1). split; [lia|].
    cbn [read_digits]. rewrite Hd. cbn [default].
    do 2 f_equal. rewrite Z.pow_add_r by lia. rewrite Hx10.
    generalize (Z.of_N (x `mod` 10)) (Z.of_N (x `div` 10)) (default 0 acc)
      (10 ^ k).
    intros. unfold id. ring.
Qed.

Lemma pretty_positive_go (p : positive) :
  pretty p = pretty_N_go (N.pos p) "".
Proof. reflexivity. Qed.

Lemma read_digits_pretty_positive (p : positive) :
  read_digits (pretty p) None = Some (Z.pos p).
Proof.
  rewrite pretty_positive_go.
  destruct (read_digits_pretty_N_go (N.pos p) "" None) as (k & _ & ->);
    [lia|].
  simpl. reflexivity.
Qed.

(** [stoi] reads back what [operator<<] prints for an [int]. *)
Lemma stoi_show_int (z : Z) :
  is_int32 z -> stoi (show_int z) = Ok z.
Proof.
  intros Hz. unfold show_int, pretty, pretty_Z.
  assert (Hr : (INT_MIN <=? z) && (z <=? INT_MAX) = true).
  { destruct Hz. apply andb_true_intro. split; by apply Z.leb_le. }
  destruct z as [|p|p].
  - reflexivity.
  - destruct (pretty_N_go_head (N.pos p) "") as (n & rest & Hn & Hh);
      [lia|].
    pose proof (read_digits_pretty_positive p) as Hd.
    rewrite pretty_positive_go in *. rewrite Hh in *.
    destruct (pretty_N_char_digit n Hn) as (_ & _ & Hs & Hsign).
    unfold stoi. cbn [skip_spaces]. rewrite Hs.
    rewrite Hsign, Hd. by rewrite Hr.
  - pose proof (read_digits_pretty_positive p) as Hd.
    change ("-" +:+ pretty p) with (String "-" (pretty p)).
    unfold stoi. cbn [skip_spaces isspace].
    change (isspace "-") with false. cbv iota. cbn [strip_sign].
    rewrite Hd. change (- Z.pos p) with (Z.neg p). by rewrite Hr.
Qed.

Lemma lacks_show_int (z : Z) :
  lacks ":" (show_int z) = true /\ show_int z <> EmptyString.
Proof.
  unfold show_int, pretty, pretty_Z. destruct z as [|p|p].
  - split; [reflexivity|discriminate].
  - rewrite pretty_positive_go, lacks_pretty_N_go. split; [done|].
    destruct (pretty_N_go_head (N.pos p) "") as (n & rest & _ & ->);
      [lia|discriminate].
  - change ("-" +:+ pretty p) with (String "-" (pretty p)).
    cbn [lacks]. rewrite pretty_positive_go, lacks_pretty_N_go.
    split; [reflexivity|discriminate].
Qed.

(** ** Names of the registries *)

(** An entry found in a table given by its list is one of the list. *)
Ltac table_cases H :=
  unfold at_ in H;
  match type of H with
  | context [ ?m !! ?v ] =>
      let E := fresh "E" in
      destruct (m !! v) as [?|] eqn:E; [|discriminate];
      injection H as <-;
      apply elem_of_map_to_list in E;
      let l := eval vm_compute in (map_to_list m) in
      replace (map_to_list m) with l in E by (vm_compute; reflexivity);
      repeat (apply elem_of_cons in E as [E|E];
              [injection E as -> ->; split; vm_compute; reflexivity|]);
      by apply elem_of_nil in E
  end.

Lemma association_name (v : Z) (a : string) :
  association_to_string v = Ok a ->
  lacks ":" a = true /\ association_from_string a = Ok v.
Proof. unfold association_to_string. intros H. table_cases H. Qed.

Lemma data_type_name (v : Z) (a : string) :
  data_type_to_string v = Ok a ->
  lacks ":" a = true /\ data_type_from_string a = Ok v.
Proof. unfold data_type_to_string. intros H. table_cases H. Qed.

Lemma attribute_type_name (v : Z) (a : string) :
  attribute_type_to_string v = Ok a ->
  lacks ":" a = true /\ attribute_type_from_string a = Ok v.
Proof. unfold attribute_type_to_string. intros H. table_cases H. Qed.

Lemma association_named (v : Z) :
  in_span v assoc_invalid -> exists a, association_to_string v = Ok a.
Proof.
  unfold in_span. simpl. intros H.
  destruct v as [|p|p]; try lia; [by eexists|].
  do 3 (try destruct p as [p|p|]); try lia; by eexists.
Qed.

Lemma data_type_named (v : Z) :
  in_span v dt_invalid ->
  (exists a, data_type_to_string v = Ok a)
  /\ (exists t, attribute_type_to_string v = Ok t).
Proof.
  unfold in_span. simpl. intros H.
  destruct v as [|p|p]; try lia; [split; by eexists|].
  do 4 (try destruct p as [p|p|]); try lia; split; by eexists.
Qed.

(** ** Tokenising *)

(** ** Tokenising *)

Lemma tokens_nil (s : string) (delim : ascii) :
  tokens s delim = [] <-> s = EmptyString.
Proof.
  split; [|by intros ->].
  destruct s as [|c s]; [done|]. cbn [tokens].
  destruct (Ascii.eqb c delim); [discriminate|].
  destruct (tokens s delim); discriminate.
Qed.

Lemma tokens_lack_delim (s : string) (delim : ascii) (t : string) :
  t ∈ tokens s delim -> lacks delim t = true.
Proof.
  revert t. induction s as [|c s IH]; intros t Ht.
  - by apply elem_of_nil in Ht.
  - cbn [tokens] in Ht. destruct (Ascii.eqb c delim) eqn:Hc.
    + apply elem_of_cons in Ht as [->|Ht]; [done|by apply IH].
    + destruct (tokens s delim) as [|item items].
      * apply elem_of_cons in Ht as [->|Ht]; [|by apply elem_of_nil in Ht].
        simpl. by rewrite Hc.
      * apply elem_of_cons in Ht as [->|Ht].
        -- simpl. rewrite Hc. simpl. apply IH, elem_of_cons. by left.
        -- apply IH, elem_of_cons. by right.
Qed.

(** X1.  No token that [split] returns contains the delimiter. *)
Theorem split_tokens_lack_delimiter (s : string) (delim : ascii) (t : string) :
  t ∈ split s delim -> lacks delim t = true.
Proof. rewrite split_tokens. apply tokens_lack_delim. Qed.

Lemma split_tokens_lack_delimiter_witness :
  "vertex" ∈ split "g3d:vertex:uv" ":" /\ lacks ":" "vertex" = true.
Proof.
  assert (H : "vertex" ∈ split "g3d:vertex:uv" ":").
  { vm_compute. apply elem_of_cons. right. apply elem_of_cons. by left. }
  split; [exact H|].
  exact (split_tokens_lack_delimiter "g3d:vertex:uv" ":" "vertex" H).
Defined.

Lemma join_cons_String (delim c : ascii) (item : string)
    (items : list string) :
  join delim (String c item :: items) = String c (join delim (item :: items)).
Proof. destruct items; reflexivity. Qed.

Lemma tokens_cons (c : ascii) (s : string) (delim : ascii) :
  tokens (String c s) delim
  = if Ascii.eqb c delim then EmptyString :: tokens s delim
    else match tokens s delim with
         | [] => [String c EmptyString]
         | item :: items => String c item :: items
         end.
Proof. reflexivity. Qed.

Lemma ends_with_cons (delim c c' : ascii) (s : string) :
  ends_with delim (String c (String c' s)) = ends_with delim (String c' s).
Proof. reflexivity. Qed.

(** The tokens by recursion, joined again. *)
Lemma join_tokens (s : string) (delim : ascii) :
  join delim (tokens s delim)
  +:+ (if ends_with delim s then String delim EmptyString else EmptyString)
  = s.
Proof.
  induction s as [|c s IH]; [done|].
  rewrite tokens_cons.
  destruct s as [|c' s'].
  - simpl. destruct (Ascii.eqb_spec c delim) as [->|_]; reflexivity.
  - rewrite ends_with_cons.
    destruct (tokens (String c' s') delim) as [|item items] eqn:Ht.
    { by apply tokens_nil in Ht. }
    destruct (Ascii.eqb_spec c delim) as [->|_].
    + change (join delim (EmptyString :: item :: items))
        with (String delim (join delim (item :: items))).
      change (String delim ?x +:+ ?y) with (String delim (x +:+ y)).
      by rewrite IH.
    + rewrite join_cons_String.
      change (String c ?x +:+ ?y) with (String c (x +:+ y)).
      by rewrite IH.
Qed.

(** X2.  Joining the tokens of [split] with the delimiter gives the string
    back, but for one delimiter at the very end of the string, which
    [split] drops. *)
Theorem join_split (s : string) (delim : ascii) :
  join delim (split s delim)
  +:+ (if ends_with delim s then String delim EmptyString else EmptyString)
  = s.
Proof. rewrite split_tokens. apply join_tokens. Qed.

(** X3.  [split] undoes [join] on every list of tokens without delimiter
    whose last token is not empty. *)
Theorem split_join (ts : list string) (delim : ascii) :
  Forall (fun t => lacks delim t = true) ts ->
  last ts <> Some EmptyString ->
  split (join delim ts) delim = ts.
Proof.
  rewrite split_tokens. induction ts as [|t ts IH]; intros Hl Hlast; [done|].
  apply Forall_cons in Hl as [Ht Hl].
  destruct ts as [|t' ts].
  - simpl. apply tokens_lacks; [done|]. intros ->. by apply Hlast.
  - change (join delim (t :: t' :: ts))
      with (t +:+ String delim (join delim (t' :: ts))).
    rewrite tokens_append by done. f_equal. apply IH; [done|].
    by rewrite last_cons_cons in Hlast.
Qed.

Lemma split_join_witness :
  Forall (fun t => lacks ":" t = true) ["g3d"; ""; "uv"]
  /\ last ["g3d"; ""; "uv"] <> Some EmptyString
  /\ split (join ":" ["g3d"; ""; "uv"]) ":" = ["g3d"; ""; "uv"].
Proof.
  assert (H1 : Forall (fun t => lacks ":" t = true) ["g3d"; ""; "uv"])
    by (repeat constructor).
  assert (H2 : last ["g3d"; ""; "uv"] <> Some EmptyString) by discriminate.
  split; [exact H1|]. split; [exact H2|].
  exact (split_join ["g3d"; ""; "uv"] ":" H1 H2).
Defined.

(** ** Reversing a name table *)

#[local] Instance key_le_trans {V : Type} : Transitive (@key_le V).
Proof. intros a b c. unfold key_le. lia. Qed.

#[local] Instance key_le_total {V : Type} : Total (@key_le V).
Proof. intros a b. unfold key_le. lia. Qed.

(** Over entries in ascending key order the last assignment to a name comes
    from its greatest key. *)
Lemma foldl_assign_greatest (l : list (Z * string)) (r : gmap string Z)
    (s : string) (v : Z) :
  StronglySorted key_le l ->
  foldl assign r l !! s = Some v ->
  forall k, (k, s) ∈ l -> k <= v.
Proof.
  revert r. induction l as [|[k0 n0] l IH]; intros r Hs H k Hk.
  - by apply elem_of_nil in Hk.
  - apply StronglySorted_inv in Hs as [Hs Hall]. simpl in H.
    apply elem_of_cons in Hk as [Hk|Hk]; [|by eapply IH].
    injection Hk as -> ->.
    apply foldl_assign_Some in H as [H|H].
    + unfold assign in H. simpl in H. rewrite lookup_insert_eq in H.
      injection H as ->. lia.
    + rewrite Forall_forall in Hall. apply (Hall _ H).
Qed.

(** X4.  [reverse_map] maps a name to a key that has this name, and when
    several keys have it, to the greatest of them; a string that names no
    key has no entry. *)
Theorem reverse_map_greatest_key (m : gmap Z string) (s : string) :
  (forall v,
     reverse_map m !! s = Some v
     <-> m !! v = Some s /\ forall v', m !! v' = Some s -> v' <= v)
  /\ (reverse_map m !! s = None <-> forall v, m !! v <> Some s).
Proof.
  assert (Hfwd : forall v, reverse_map m !! s = Some v ->
            m !! v = Some s /\ forall v', m !! v' = Some s -> v' <= v).
  { intros v H. split; [by apply reverse_map_Some|].
    intros v' Hv'. unfold reverse_map in H.
    eapply foldl_assign_greatest; [|exact H|by apply elem_of_entries].
    unfold entries. apply StronglySorted_merge_sort; apply _. }
  split; [|apply reverse_map_None].
  intros v. split; [apply Hfwd|].
  intros [Hv Hmax].
  destruct (reverse_map m !! s) as [w|] eqn:Hw.
  - destruct (Hfwd w eq_refl) as [Hw1 Hw2].
    f_equal. specialize (Hmax w Hw1). specialize (Hw2 v Hv). lia.
  - destruct (proj1 (reverse_map_None m s) Hw v Hv).
Qed.

(** ** Printing *)

(** *** What [from_string] throws *)

Lemma at_Throw {K V : Type} `{Countable K} (m : gmap K V) (k : K)
    (e : exception) :
  at_ m k = Throw e -> e = out_of_range.
Proof. unfold at_. destruct (m !! k); [discriminate|]. by intros [= <-]. Qed.

Lemma at_not_Undefined {K V : Type} `{Countable K} (m : gmap K V) (k : K) :
  at_ m k <> Undefined.
Proof. unfold at_. by destruct (m !! k). Qed.

(** The key of an entry found in a table given by its list lies between
    the bounds of the list. *)
Ltac table_bounds H :=
  unfold at_ in H;
  match type of H with
  | context [ ?m !! ?v ] =>
      let E := fresh "E" in
      destruct (m !! v) as [?|] eqn:E; [|discriminate];
      apply elem_of_map_to_list in E;
      let l := eval vm_compute in (map_to_list m) in
      replace (map_to_list m) with l in E by (vm_compute; reflexivity);
      repeat (apply elem_of_cons in E as [E|E];
              [injection E as -> _; lia|]);
      by apply elem_of_nil in E
  end.

Lemma association_to_string_Ok (v : Z) (a : string) :
  association_to_string v = Ok a -> 0 <= v <= 6.
Proof. unfold association_to_string. intros H. table_bounds H. Qed.

Lemma data_type_to_string_Ok (v : Z) (a : string) :
  data_type_to_string v = Ok a -> 0 <= v <= 14.
Proof. unfold data_type_to_string. intros H. table_bounds H. Qed.

Lemma names_of_sentinels (v : Z) :
  (0 <= v <= 6 -> exists a, association_to_string v = Ok a)
  /\ (0 <= v <= 14 ->
      (exists a, data_type_to_string v = Ok a)
      /\ (exists t, attribute_type_to_string v = Ok t)).
Proof.
  split; intros H.
  - destruct v as [|p|p]; try lia; [by eexists|].
    do 3 (try destruct p as [p|p|]); try lia; by eexists.
  - destruct v as [|p|p]; try lia; [split; by eexists|].
    do 4 (try destruct p as [p|p|]); try lia; split; by eexists.
Qed.

(** The text in the stream, spelled out with the three names. *)
Lemma to_string_stream_names (d : AttributeDescriptor) (a t dt : string) :
  association_to_string (_association d) = Ok a ->
  attribute_type_to_string (_data_type d) = Ok t ->
  data_type_to_string (_data_type d) = Ok dt ->
  to_string_stream d = Ok (descriptor_text a t dt d).
Proof.
  intros Ha Ht Hd.
  unfold to_string_stream, association_string, attribute_type_string,
    data_type_string, association, data_type, attribute_type_index,
    data_arity.
  by rewrite Ha, Ht, Hd.
Qed.

Lemma to_string_stream_Ok_names (d : AttributeDescriptor) (s : string) :
  to_string_stream d = Ok s ->
  exists a t dt,
    association_to_string (_association d) = Ok a
    /\ attribute_type_to_string (_data_type d) = Ok t
    /\ data_type_to_string (_data_type d) = Ok dt.
Proof.
  unfold to_string_stream, association_string, attribute_type_string,
    data_type_string, association, data_type.
  destruct (association_to_string _) as [a| |]; try discriminate.
  destruct (attribute_type_to_string _) as [t| |]; try discriminate.
  destruct (data_type_to_string _) as [dt| |]; try discriminate.
  intros _. by exists a, t, dt.
Qed.

(** The stream is written or a name lookup throws [out_of_range]. *)
Lemma to_string_stream_outcome (d : AttributeDescriptor) :
  (exists s, to_string_stream d = Ok s)
  \/ to_string_stream d = Throw out_of_range.
Proof.
  unfold to_string_stream, association_string, attribute_type_string,
    data_type_string, association_to_string, attribute_type_to_string,
    data_type_to_string.
  destruct (at_ associations_to_strings _) as [a|e1|] eqn:E1;
    [|apply at_Throw in E1 as ->; by right|by apply at_not_Undefined in E1].
  destruct (at_ attribute_types_to_strings _) as [t|e2|] eqn:E2;
    [|apply at_Throw in E2 as ->; by right|by apply at_not_Undefined in E2].
  destruct (at_ data_types_to_strings _) as [dt|e3|] eqn:E3;
    [|apply at_Throw in E3 as ->; by right|by apply at_not_Undefined in E3].
  left. by eexists.
Qed.

(** The stream is written exactly when the association and the data type
    have a name. *)
Lemma to_string_stream_defined (d : AttributeDescriptor) :
  (exists s, to_string_stream d = Ok s) <-> names_in_tables d.
Proof.
  unfold names_in_tables. simpl. split.
  - intros [s Hs].
    destruct (to_string_stream_Ok_names d s Hs)
      as (a & t & dt & Ha & _ & Hd).
    apply association_to_string_Ok in Ha.
    apply data_type_to_string_Ok in Hd. done.
  - intros [Ha Hd].
    destruct (proj1 (names_of_sentinels _) Ha) as [a Hna].
    destruct (proj2 (names_of_sentinels _) Hd) as [[dt Hnd] [t Hnt]].
    eexists. by apply (to_string_stream_names d a t dt).
Qed.

(** [to_string] after its stream: undefined once the stream is written. *)
Lemma to_string_after_stream (d : AttributeDescriptor) :
  to_string d
  = match to_string_stream d with
    | Ok _ => Undefined
    | Throw e => Throw e
    | Undefined => Undefined
    end.
Proof. unfold to_string. by destruct (to_string_stream d). Qed.

Lemma to_string_never_Ok (d : AttributeDescriptor) (s : string) :
  to_string d <> Ok s.
Proof. rewrite to_string_after_stream. by destruct (to_string_stream d). Qed.

Lemma to_string_Throw (d : AttributeDescriptor) (e : exception) :
  to_string d = Throw e -> e = out_of_range.
Proof.
  rewrite to_string_after_stream.
  destruct (to_string_stream_outcome d) as [[s ->]| ->]; [discriminate|].
  by intros [= <-].
Qed.

(** The stream of a valid descriptor is written, so its [to_string] is
    undefined. *)
Lemma to_string_valid (d : AttributeDescriptor) :
  validate d = Ok tt -> to_string d = Undefined.
Proof.
  intros Hv.
  pose proof (proj1 (validate_Ok d) Hv) as (Hsa & _ & Hsd & _).
  destruct (proj2 (to_string_stream_defined d)) as [s Hs].
  { unfold names_in_tables, in_span in *. simpl in *. lia. }
  rewrite to_string_after_stream. by rewrite Hs.
Qed.

(** X10.  [to_string] never returns a string to its caller.  When the
    association is between 0 and [assoc_invalid] and the data type between
    0 and [dt_invalid], both sentinels included, the stream is written and
    the reference returned dangles: the call is undefined.  Otherwise a
    name lookup throws [out_of_range]. *)
Theorem to_string_never_returns (d : AttributeDescriptor) :
  (forall s, to_string d <> Ok s)
  /\ (to_string d = Undefined <-> names_in_tables d)
  /\ (to_string d = Throw out_of_range <-> ~ names_in_tables d).
Proof.
  split; [apply to_string_never_Ok|].
  rewrite <- to_string_stream_defined, to_string_after_stream.
  destruct (to_string_stream_outcome d) as [[s Hs]|Hs]; rewrite Hs.
  - split; split; try done.
    + intros _. by exists s.
    + intros H. destruct H. by exists s.
  - split; split; try done.
    + intros [s' Hs']. discriminate.
    + intros _ [s' Hs']. discriminate.
Qed.

(** ** Parsing *)

(** ** Parsing *)

Lemma stoi_int32 (s : string) (z : Z) : stoi s = Ok z -> is_int32 z.
Proof.
  unfold stoi. destruct (strip_sign (skip_spaces s)) as [negative s2].
  destruct (read_digits s2 None) as [n|]; [|discriminate].
  destruct ((INT_MIN <=? _) && (_ <=? INT_MAX)) eqn:Hr; [|discriminate].
  intros [= <-]. apply andb_prop in Hr as [H1 H2].
  split; by apply Z.leb_le.
Qed.

Lemma stoi_Throw (s : string) (e : exception) :
  stoi s = Throw e -> e = invalid_argument \/ e = out_of_range.
Proof.
  unfold stoi. destruct (strip_sign _) as [negative s2].
  destruct (read_digits s2 None); [|intros [= <-]; by left].
  destruct (_ && _); [discriminate|]. intros [= <-]. by right.
Qed.

Lemma stoi_not_Undefined (s : string) : stoi s <> Undefined.
Proof.
  unfold stoi. destruct (strip_sign _) as [negative s2].
  destruct (read_digits s2 None); [|done]. by destruct (_ && _).
Qed.

Lemma validate_Throw (d : AttributeDescriptor) (e : exception) :
  validate d = Throw e -> RangeError e \/ ArityError e.
Proof.
  rewrite validate_cascade. unfold RangeError, ArityError.
  repeat case_decide; intros [= <-]; tauto.
Qed.

Lemma validate_not_Undefined (d : AttributeDescriptor) :
  validate d <> Undefined.
Proof. rewrite validate_cascade. by repeat case_decide. Qed.

(** *** The tokens of a descriptor string *)

Lemma append_nonempty_r (a b : string) :
  b <> EmptyString -> a +:+ b <> EmptyString.
Proof. destruct a; [done|discriminate]. Qed.

Lemma ends_with_append (delim : ascii) (a b : string) :
  b <> EmptyString -> ends_with delim (a +:+ b) = ends_with delim b.
Proof.
  intros Hb. induction a as [|c a IH]; [done|].
  change (String c a +:+ b) with (String c (a +:+ b)).
  destruct (a +:+ b) as [|c' r] eqn:Hab.
  - by apply append_nonempty_r in Hab.
  - rewrite ends_with_cons. exact IH.
Qed.

Lemma lacks_ends_with (delim : ascii) (b : string) :
  lacks delim b = true -> ends_with delim b = false.
Proof.
  induction b as [|c b IH]; [done|]. simpl. intros H.
  apply andb_prop in H as [Hc Hb]. apply negb_true_iff in Hc.
  destruct b; [done|by apply IH].
Qed.

(** After a string that is not empty and does not end with the delimiter,
    a delimiter starts a new token. *)
Lemma tokens_append_delim (s e : string) (delim : ascii) :
  s <> EmptyString -> ends_with delim s = false ->
  tokens (s +:+ String delim e) delim
  = (tokens s delim ++ tokens e delim)%list.
Proof.
  induction s as [|c s IH]; intros Hne He; [done|].
  change (String c s +:+ String delim e)
    with (String c (s +:+ String delim e)).
  rewrite !tokens_cons.
  destruct s as [|c' s'].
  - simpl in He. rewrite He. simpl.
    by rewrite Ascii.eqb_refl.
  - rewrite ends_with_cons in He. rewrite IH by done.
    destruct (tokens (String c' s') delim) as [|item items] eqn:Ht.
    { by apply tokens_nil in Ht. }
    by destruct (Ascii.eqb c delim).
Qed.

(** *** The tokens of a descriptor text *)

(** A descriptor text splits into its six tokens, does not end with a
    colon and is not empty. *)
Lemma descriptor_text_tokens (d : AttributeDescriptor) (a t dt : string) :
  lacks ":" a = true -> lacks ":" t = true -> lacks ":" dt = true ->
  tokens (descriptor_text a t dt d) ":" = descriptor_tokens a t dt d
  /\ ends_with ":" (descriptor_text a t dt d) = false
  /\ descriptor_text a t dt d <> EmptyString.
Proof.
  intros Hla Hlt Hld.
  destruct (lacks_show_int (_attribute_type_index d)) as [Hli _].
  destruct (lacks_show_int (_data_arity d)) as [Hlr Hnr].
  unfold descriptor_text.
  split; [|split; [|discriminate]].
  - change (String.append ":") with (String ":"%char).
    rewrite !tokens_append by done.
    by rewrite tokens_lacks.
  - rewrite !ends_with_append
      by (repeat apply append_nonempty_r; first [done|discriminate]).
    by apply lacks_ends_with.
Qed.

(** The six tokens of a descriptor text, made with names of the tables,
    are read back as the descriptor whose attribute type is the one the
    middle name stands for. *)
Lemma descriptor_tokens_parse (d : AttributeDescriptor) (a t dt : string) :
  is_int32 (_attribute_type_index d) -> is_int32 (_data_arity d) ->
  association_to_string (_association d) = Ok a ->
  attribute_type_to_string (_attribute_type d) = Ok t ->
  data_type_to_string (_data_type d) = Ok dt ->
  tokens_parse_to (descriptor_tokens a t dt d) d.
Proof.
  intros Hi Hr Ha Ht Hd.
  destruct (association_name _ _ Ha) as [_ Hfa].
  destruct (data_type_name _ _ Hd) as [_ Hfd].
  destruct (attribute_type_name _ _ Ht) as [_ Hft].
  exists a, t, (show_int (_attribute_type_index d)), dt,
    (show_int (_data_arity d)).
  split; [reflexivity|].
  by rewrite Hfa, Hft, Hfd, !stoi_show_int.
Qed.

(** *** What [from_string] does *)

(** [from_string] on a string that splits into six tokens that stand for a
    valid descriptor, followed by more tokens: more tokens are refused,
    none lead to the call of [to_string]. *)
Lemma from_string_on_tokens (d : AttributeDescriptor) (s : string)
    (ts extra : list string) :
  tokens_parse_to ts d ->
  validate d = Ok tt ->
  split s ":" = (ts ++ extra)%list ->
  from_string s
  = match extra with
    | _ :: _ => Throw too_many_tokens
    | [] => Undefined
    end.
Proof.
  intros (t1 & t2 & t3 & t4 & t5 & -> & Ha & Ht & Hi & Hd & Hr) Hv Hsplit.
  unfold from_string. rewrite Hsplit. cbn [app].
  change (String.eqb "g3d" "g3d") with true. cbv iota. cbn [negb].
  rewrite Ha. cbn [mbind result_bind bind].
  rewrite Ht. cbn [mbind result_bind bind].
  rewrite Hi. cbn [mbind result_bind bind].
  rewrite Hd. cbn [mbind result_bind bind].
  rewrite Hr. cbn [mbind result_bind bind].
  destruct d as [da dt di dr dd].
  cbn [_association _attribute_type _attribute_type_index _data_arity
       _data_type] in *.
  rewrite Hv. cbn [mbind result_bind bind].
  destruct extra as [|x extra]; [|reflexivity].
  by rewrite (to_string_valid _ Hv).
Qed.

(** Past the check of the first token, [from_string] does not throw
    "Expected g3d", returns nothing, throws one of its exceptions, and is
    undefined only after six tokens that stand for a valid descriptor. *)
Lemma from_string_after_prefix (s : string) (ts : list string) :
  split s ":" = "g3d" :: ts ->
  from_string s <> Throw expected_g3d
  /\ (forall d, from_string s <> Ok d)
  /\ (forall e, from_string s = Throw e -> from_string_exception e)
  /\ (from_string s = Undefined ->
      exists d, tokens_parse_to ("g3d" :: ts) d /\ validate d = Ok tt).
Proof.
  intros Hsplit. unfold from_string, insufficient_tokens.
  rewrite Hsplit. change (String.eqb "g3d" "g3d") with true.
  cbv iota. cbn [negb].
  unfold from_string_exception, expected_g3d, too_many_tokens,
    insufficient.
  assert (Hne : forall e,
    RangeError e \/ ArityError e -> e <> runtime_error "Expected g3d").
  { unfold RangeError, ArityError. intros e He ->.
    decompose [or] He; discriminate. }
  destruct ts as [|t1 ts];
    [split; [done|split; [done|split; [intros e [= <-]; tauto|done]]]|].
  unfold association_from_string, attribute_type_from_string,
    data_type_from_string.
  destruct (at_ associations_from_strings t1) as [a|e1|] eqn:E1;
    cbn [mbind result_bind bind];
    [|apply at_Throw in E1 as ->;
      split; [done|split; [done|split; [intros e [= <-]; tauto|done]]]
     |by apply at_not_Undefined in E1].
  destruct ts as [|t2 ts];
    [split; [done|split; [done|split; [intros e [= <-]; tauto|done]]]|].
  destruct (at_ attribute_types_from_strings t2) as [t|e2|] eqn:E2;
    cbn [mbind result_bind bind];
    [|apply at_Throw in E2 as ->;
      split; [done|split; [done|split; [intros e [= <-]; tauto|done]]]
     |by apply at_not_Undefined in E2].
  destruct ts as [|t3 ts];
    [split; [done|split; [done|split; [intros e [= <-]; tauto|done]]]|].
  destruct (stoi t3) as [i|e3|] eqn:E3;
    cbn [mbind result_bind bind];
    [|apply stoi_Throw in E3 as [->| ->];
      (split; [done|split; [done|split; [intros e [= <-]; tauto|done]]])
     |by apply stoi_not_Undefined in E3].
  destruct ts as [|t4 ts];
    [split; [done|split; [done|split; [intros e [= <-]; tauto|done]]]|].
  destruct (at_ data_types_from_strings t4) as [dt|e4|] eqn:E4;
    cbn [mbind result_bind bind];
    [|apply at_Throw in E4 as ->;
      split; [done|split; [done|split; [intros e [= <-]; tauto|done]]]
     |by apply at_not_Undefined in E4].
  destruct ts as [|t5 ts];
    [split; [done|split; [done|split; [intros e [= <-]; tauto|done]]]|].
  destruct (stoi t5) as [r|e5|] eqn:E5;
    cbn [mbind result_bind bind];
    [|apply stoi_Throw in E5 as [->| ->];
      (split; [done|split; [done|split; [intros e [= <-]; tauto|done]]])
     |by apply stoi_not_Undefined in E5].
  destruct (validate _) as [[]|e6|] eqn:E6;
    cbn [mbind result_bind bind];
    [|apply validate_Throw in E6;
      split; [intros [= ->]; by apply (Hne _ E6)
             |split; [done|split; [intros e [= <-]; tauto|done]]]
     |by apply validate_not_Undefined in E6].
  destruct ts as [|t6 ts];
    [|split; [done|split; [done|split; [intros e [= <-]; tauto|done]]]].
  rewrite (to_string_valid _ E6). cbn [mbind result_bind bind].
  split; [done|]. split; [done|]. split; [done|]. intros _.
  eexists. split; [|exact E6].
  exists t1, t2, t3, t4, t5. by repeat split.
Qed.

(** A string whose first token is "g3d" is "g3d" itself or starts with
    "g3d:". *)
Lemma first_token_g3d (s : string) (ts : list string) :
  tokens s ":" = "g3d" :: ts ->
  s = "g3d" \/ exists rest, s = "g3d:" +:+ rest.
Proof.
  intros Ht. pose proof (join_tokens s ":") as Hj.
  rewrite Ht in Hj.
  destruct ts as [|t1 ts].
  - simpl in Hj. destruct (ends_with ":" s).
    + right. exists EmptyString. by rewrite <- Hj.
    + left. by rewrite <- Hj.
  - right.
    exists (join ":" (t1 :: ts)
            +:+ (if ends_with ":" s then ":" else EmptyString)).
    rewrite <- Hj at 1. reflexivity.
Qed.

(** What [from_string] does on any string: nothing is returned, what is
    thrown is one of its exceptions, and the call is undefined exactly
    after six tokens that stand for a valid descriptor. *)
Lemma from_string_cases (s : string) :
  (forall d, from_string s <> Ok d)
  /\ (forall e, from_string s = Throw e -> from_string_exception e)
  /\ (from_string s = Undefined
      <-> exists d, tokens_parse_to (split s ":") d /\ validate d = Ok tt).
Proof.
  assert (Hback : (exists d, tokens_parse_to (split s ":") d
                             /\ validate d = Ok tt)
                  -> from_string s = Undefined).
  { intros (d & Hp & Hv).
    apply (from_string_on_tokens d s (split s ":") [] Hp Hv).
    by rewrite app_nil_r. }
  destruct (split s ":") as [|t0 ts] eqn:Hsplit.
  { assert (Hfs : from_string s = Throw insufficient)
      by (unfold from_string; by rewrite Hsplit).
    unfold from_string_exception. rewrite Hfs.
    split; [done|]. split; [intros e [= <-]; tauto|].
    split; [done|]. by rewrite <- Hfs. }
  destruct (String.eqb_spec t0 "g3d") as [->|Hn0].
  { destruct (from_string_after_prefix s ts Hsplit) as (_ & ? & ? & ?).
    repeat split; auto. }
  assert (Hfs : from_string s = Throw expected_g3d).
  { unfold from_string. rewrite Hsplit.
    by destruct (String.eqb_spec t0 "g3d"). }
  unfold from_string_exception. rewrite Hfs.
  split; [done|]. split; [intros e [= <-]; tauto|].
  split; [done|]. by rewrite <- Hfs.
Qed.

(** X8.  [from_string] throws "Expected g3d" exactly on the strings that
    are not empty, are not "g3d" and do not start with "g3d:"; the prefix
    is checked before any other token is looked at. *)
Theorem from_string_expected_g3d (s : string) :
  from_string s = Throw expected_g3d
  <-> s <> EmptyString /\ s <> "g3d"
      /\ forall rest, s <> "g3d:" +:+ rest.
Proof.
  split.
  - intros H.
    destruct (split s ":") as [|t0 ts] eqn:Hsplit.
    { unfold from_string in H. by rewrite Hsplit in H. }
    destruct (String.eqb_spec t0 "g3d") as [->|Hne].
    { by destruct (from_string_after_prefix s ts Hsplit) as [Hn _]. }
    rewrite split_tokens in Hsplit.
    split; [by intros ->|]. split; [intros ->; by injection Hsplit|].
    intros rest ->.
    change ("g3d:" +:+ rest) with ("g3d" +:+ String ":"%char rest) in Hsplit.
    rewrite tokens_append in Hsplit by done. by injection Hsplit.
  - intros (Hne & Hg & Hp).
    destruct (split s ":") as [|t0 ts] eqn:Hsplit.
    { rewrite split_tokens in Hsplit. by apply tokens_nil in Hsplit. }
    destruct (String.eqb_spec t0 "g3d") as [->|Hn0].
    { rewrite split_tokens in Hsplit.
      destruct (first_token_g3d s ts Hsplit) as [->|[rest ->]];
        [done|by destruct (Hp rest)]. }
    unfold from_string. rewrite Hsplit.
    destruct (String.eqb_spec t0 "g3d"); done.
Qed.

(** X5.  [from_string] never returns a descriptor: every string is refused
    by an exception or reaches the call of [to_string], whose result is a
    reference to a destroyed temporary.  The call is undefined exactly
    when the string splits into six tokens, "g3d" first, whose names are
    in the tables, whose numbers [stoi] reads, and which stand for a
    descriptor that [validate] accepts. *)
Theorem from_string_never_returns (s : string) :
  (forall d, from_string s <> Ok d)
  /\ (from_string s = Undefined
      <-> exists d, tokens_parse_to (split s ":") d /\ validate d = Ok tt).
Proof.
  destruct (from_string_cases s) as (H1 & _ & H3). by split.
Qed.

(** X9.  [from_string] throws nothing but: "Insufficient tokens", "Expected
    g3d", "Too many tokens", the two kinds of messages of [validate],
    [out_of_range] from a name or number that is unknown or too large,
    [invalid_argument] from a number without digits.  Its own "Internal
    error" is never thrown: the comparison that guards it reads the
    dangling result of [to_string]. *)
Theorem from_string_exceptions (s : string) (e : exception) :
  from_string s = Throw e ->
  from_string_exception e
  /\ ~ (exists what, e = runtime_error what
                     /\ String.prefix "Internal error" what = true).
Proof.
  intros H.
  destruct (from_string_cases s) as (_ & H2 & _).
  specialize (H2 e H). split; [exact H2|].
  intros (what & -> & Hp).
  unfold from_string_exception, insufficient, expected_g3d, too_many_tokens,
    RangeError, ArityError in H2.
  decompose [or] H2;
    match goal with
    | Heq : runtime_error what = runtime_error _ |- _ =>
        injection Heq as ->; discriminate
    | Heq : runtime_error what = _ |- _ => discriminate
    end.
Qed.

Lemma from_string_exceptions_witness :
  from_string "obj:vertex" = Throw expected_g3d
  /\ from_string_exception expected_g3d.
Proof.
  assert (H : from_string "obj:vertex" = Throw expected_g3d)
    by (vm_compute; reflexivity).
  split; [exact H|].
  exact (proj1 (from_string_exceptions "obj:vertex" expected_g3d H)).
Defined.

(** X7.  The text of a valid descriptor, written with the names of its
    association, its attribute type and its data type, passes every check
    of [from_string] and reaches the call of [to_string]: the call is
    undefined.  A colon followed by anything after the text makes
    [from_string] throw "Too many tokens"; a colon alone adds no token and
    the call is undefined again. *)
Theorem from_string_trailing_tokens (d : AttributeDescriptor)
    (a t dt : string) :
  validate d = Ok tt ->
  is_int32 (_attribute_type_index d) -> is_int32 (_data_arity d) ->
  association_to_string (_association d) = Ok a ->
  attribute_type_to_string (_attribute_type d) = Ok t ->
  data_type_to_string (_data_type d) = Ok dt ->
  from_string (descriptor_text a t dt d) = Undefined
  /\ (forall e, e <> EmptyString ->
        from_string (descriptor_text a t dt d +:+ ":" +:+ e)
        = Throw too_many_tokens)
  /\ from_string (descriptor_text a t dt d +:+ ":") = Undefined.
Proof.
  intros Hv Hi Hr Ha Ht Hd.
  pose proof (descriptor_tokens_parse d a t dt Hi Hr Ha Ht Hd) as Hp.
  destruct (association_name _ _ Ha) as [Hla _].
  destruct (data_type_name _ _ Hd) as [Hld _].
  destruct (attribute_type_name _ _ Ht) as [Hlt _].
  destruct (descriptor_text_tokens d a t dt Hla Hlt Hld)
    as (Htok & Hend & Hne).
  assert (Hsplit : forall e,
    split (descriptor_text a t dt d +:+ ":" +:+ e) ":"
    = (descriptor_tokens a t dt d ++ tokens e ":")%list).
  { intros e. rewrite split_tokens.
    change (":" +:+ e) with (String ":"%char e).
    rewrite tokens_append_delim by done. by rewrite Htok. }
  split; [|split].
  - apply (from_string_on_tokens d _ _ [] Hp Hv).
    by rewrite split_tokens, Htok, app_nil_r.
  - intros e He.
    rewrite (from_string_on_tokens d _ _ _ Hp Hv (Hsplit e)).
    destruct (tokens e ":") eqn:Hte; [|done].
    by apply tokens_nil in Hte.
  - specialize (Hsplit EmptyString). cbn [tokens] in Hsplit.
    change (":" +:+ "") with ":" in Hsplit.
    by rewrite (from_string_on_tokens d _ _ _ Hp Hv Hsplit).
Qed.

Lemma from_string_trailing_tokens_witness :
  let d := mkDescriptor assoc_vertex attr_color 0 3 dt_float32 in
  validate d = Ok tt
  /\ is_int32 (_attribute_type_index d) /\ is_int32 (_data_arity d)
  /\ descriptor_text "vertex" "color" "float32" d
     = "g3d:vertex:color:0:float32:3"
  /\ from_string "g3d:vertex:color:0:float32:3" = Undefined
  /\ from_string "g3d:vertex:color:0:float32:3:x" = Throw too_many_tokens
  /\ from_string "g3d:vertex:color:0:float32:3:" = Undefined.
Proof.
  intros d.
  assert (Hv : validate d = Ok tt) by reflexivity.
  assert (Hi : is_int32 (_attribute_type_index d))
    by (unfold is_int32, INT_MIN, INT_MAX; simpl; lia).
  assert (Hr : is_int32 (_data_arity d))
    by (unfold is_int32, INT_MIN, INT_MAX; simpl; lia).
  assert (Ha : association_to_string (_association d) = Ok "vertex")
    by (vm_compute; reflexivity).
  assert (Ht : attribute_type_to_string (_attribute_type d) = Ok "color")
    by (vm_compute; reflexivity).
  assert (Hd : data_type_to_string (_data_type d) = Ok "float32")
    by (vm_compute; reflexivity).
  pose proof (from_string_trailing_tokens d _ _ _ Hv Hi Hr Ha Ht Hd)
    as (H1 & H2 & H3).
  split; [exact Hv|]. split; [exact Hi|]. split; [exact Hr|].
  split; [vm_compute; reflexivity|].
  split; [exact H1|]. split; [exact (H2 "x" ltac:(discriminate))|exact H3].
Defined.

(** ** Round trip through the string *)

(** C1, as the code has it.  The round trip of the descriptor through its
    string does not exist in the code.  [to_string] returns a reference to
    a temporary that is destroyed when it returns, so no caller gets a
    string: for a valid descriptor the call is undefined.  [from_string]
    ends with a call of [to_string] and so returns no descriptor for any
    string.  The text that [to_string] writes to its stream is not the
    canonical one either: its middle name is looked up with the data type
    in the table of the attribute types, so parsing the text stands for
    the descriptor whose attribute type is the data type. *)
Theorem to_string_from_string_undefined :
  (forall d s, to_string d <> Ok s)
  /\ (forall s d, from_string s <> Ok d)
  /\ (forall d, validate d = Ok tt ->
        is_int32 (_attribute_type_index d) -> is_int32 (_data_arity d) ->
        to_string d = Undefined
        /\ exists text,
             to_string_stream d = Ok text
             /\ tokens_parse_to (split text ":")
                  (with_data_type_as_attribute_type d)
             /\ from_string text = Undefined)
  /\ (let d := vertex_coordinates in
      validate d = Ok tt
      /\ to_string d = Undefined
      /\ attribute_type_to_string (attribute_type d) = Ok "coordinate"
      /\ attribute_type_string d = Ok "color"
      /\ to_string_stream d = Ok "g3d:vertex:color:0:float32:3"
      /\ from_string "g3d:vertex:color:0:float32:3" = Undefined
      /\ from_string "g3d:vertex:coordinate:0:float32:3" = Undefined).
Proof.
  split; [intros d s; apply to_string_never_Ok|].
  split; [intros s d; by destruct (from_string_cases s) as (H & _)|].
  split.
  - intros d Hv Hi Hr. split; [by apply to_string_valid|].
    pose proof (proj1 (validate_Ok d) Hv) as (Hsa & Hst & Hsd & Hpos).
    destruct (proj1 (names_of_sentinels (_association d))) as [a Ha].
    { unfold in_span in Hsa. simpl in Hsa. lia. }
    destruct (proj2 (names_of_sentinels (_data_type d)))
      as [[dt Hd] [t Ht]].
    { unfold in_span in Hsd. simpl in Hsd. lia. }
    exists (descriptor_text a t dt d).
    pose (d' := with_data_type_as_attribute_type d).
    assert (Hv' : validate d' = Ok tt).
    { apply validate_Ok. unfold d', with_data_type_as_attribute_type.
      simpl. unfold in_span in *. simpl in *. repeat split; lia. }
    assert (Hp : tokens_parse_to (descriptor_tokens a t dt d) d').
    { by apply (descriptor_tokens_parse d' a t dt). }
    destruct (association_name _ _ Ha) as [Hla _].
    destruct (data_type_name _ _ Hd) as [Hld _].
    destruct (attribute_type_name _ _ Ht) as [Hlt _].
    destruct (descriptor_text_tokens d a t dt Hla Hlt Hld) as (Htok & _).
    split; [by apply to_string_stream_names|].
    rewrite split_tokens, Htok. split; [exact Hp|].
    apply (from_string_on_tokens d' _ _ [] Hp Hv').
    by rewrite split_tokens, Htok, app_nil_r.
  - repeat split; vm_compute; reflexivity.
Qed.

Lemma to_string_from_string_undefined_witness :
  let d := mkDescriptor assoc_face attr_normal 2 3 dt_int16 in
  validate d = Ok tt
  /\ to_string d = Undefined
  /\ to_string_stream d = Ok "g3d:face:binormal:2:int16:3"
  /\ from_string "g3d:face:binormal:2:int16:3" = Undefined.
Proof.
  intros d.
  assert (Hv : validate d = Ok tt) by reflexivity.
  assert (Hi : is_int32 (_attribute_type_index d))
    by (unfold is_int32, INT_MIN, INT_MAX; simpl; lia).
  assert (Hr : is_int32 (_data_arity d))
    by (unfold is_int32, INT_MIN, INT_MAX; simpl; lia).
  destruct to_string_from_string_undefined as (_ & _ & H & _).
  destruct (H d Hv Hi Hr) as (Hu & text & Hs & _ & Hf).
  assert (Ht : to_string_stream d = Ok "g3d:face:binormal:2:int16:3")
    by (vm_compute; reflexivity).
  rewrite Ht in Hs. injection Hs as <-.
  split; [exact Hv|]. split; [exact Hu|]. split; [exact Ht|exact Hf].
Defined.

(** ** The collection *)

(** [add_attribute] stops at its first statement: the name it asks
    [to_string] for never arrives. *)
Lemma add_attribute_no_name (T st : Z) (d : AttributeDescriptor) (n : Z)
    (p : pointer) (g : G3d) :
  add_attribute T st d n p g
  = (match to_string_stream d with
     | Ok _ => Undefined
     | Throw e => Throw e
     | Undefined => Undefined
     end, g).
Proof.
  unfold add_attribute. rewrite to_string_after_stream.
  by destruct (to_string_stream d).
Qed.

Lemma add_attribute_valid (T st : Z) (d : AttributeDescriptor) (n : Z)
    (p : pointer) (g : G3d) :
  validate d = Ok tt -> add_attribute T st d n p g = (Undefined, g).
Proof.
  intros Hv. unfold add_attribute. by rewrite (to_string_valid d Hv).
Qed.

(** A parse that does not return ends [add_attribute] on a string before
    the collection is touched. *)
Lemma add_attribute_string_no_parse (T st n : Z) (s : string) (p : pointer)
    (g : G3d) (e : exception) :
  from_string s = Throw e ->
  add_attribute_string T st s n p g = (Throw e, g).
Proof.
  intros H. unfold add_attribute_string, and_then, raise. by rewrite H.
Qed.

Lemma add_attribute_string_undefined (T st n : Z) (s : string) (p : pointer)
    (g : G3d) :
  from_string s = Undefined ->
  add_attribute_string T st s n p g = (Undefined, g).
Proof.
  intros H. unfold add_attribute_string, and_then, raise. by rewrite H.
Qed.

(** ** Unique keys *)

(** C5, as the code has it.  No call of [add_attribute] inserts anything,
    so the collection has no keys to keep unique.  The name is asked from
    [to_string], which returns a reference to a destroyed temporary: the
    call is undefined for every descriptor whose association and data type
    have a name, valid ones included, and throws [out_of_range] from the
    name lookup for the others; the collection is unchanged either way.
    "Attribute descriptor already exists" is never thrown, not even for a
    descriptor added twice, and adding the UV set 0 and then the UV set 1
    succeeds neither through [add_attribute] nor through [add_uvs] and
    [add_uv2s].  The text written to the stream of [to_string] does not
    depend on the attribute type. *)
Theorem add_attribute_never_adds :
  (forall (T st : Z) (d : AttributeDescriptor) (n : Z) (p : pointer)
          (g : G3d),
     (add_attribute T st d n p g = (Undefined, g)
      \/ add_attribute T st d n p g = (Throw out_of_range, g))
     /\ (names_in_tables d <-> add_attribute T st d n p g = (Undefined, g))
     /\ fst (add_attribute T st d n p g) <> Throw already_exists)
  /\ (forall (T st : Z) (d : AttributeDescriptor) (n : Z) (p : pointer)
             (g : G3d),
        validate d = Ok tt ->
        add_attribute T st d n p g = (Undefined, g)
        /\ forall T' st' n' p',
             add_attribute T' st' d n' p' g = (Undefined, g))
  /\ (forall (st n : Z) (p : pointer) (g : G3d),
        add_attribute sizeof_float st (uv_set 0) n p g = (Undefined, g)
        /\ add_attribute sizeof_float st (uv_set 1) n p g = (Undefined, g)
        /\ add_uvs st n p g = (Undefined, g)
        /\ add_uv2s st n p g = (Undefined, g))
  /\ (forall (d : AttributeDescriptor) (t : Z),
        to_string_stream
          {| _association := _association d; _attribute_type := t;
             _attribute_type_index := _attribute_type_index d;
             _data_arity := _data_arity d; _data_type := _data_type d |}
        = to_string_stream d).
Proof.
  split; [|split; [|split]].
  - intros T st d n p g. rewrite add_attribute_no_name.
    pose proof (to_string_stream_defined d) as Hdef.
    destruct (to_string_stream_outcome d) as [[s Hs]|Hs]; rewrite Hs.
    + split; [by left|]. split; [|cbn [fst]; done].
      split; [done|]. intros _. apply Hdef. by exists s.
    + split; [by right|]. split; [|cbn [fst]; done].
      split; [|done]. intros Hn. apply Hdef in Hn as [s' Hs'].
      rewrite Hs in Hs'. discriminate.
  - intros T st d n p g Hv. split; [by apply add_attribute_valid|].
    intros. by apply add_attribute_valid.
  - intros st n p g.
    split; [by apply add_attribute_valid|].
    split; [by apply add_attribute_valid|].
    split; apply add_attribute_string_undefined; vm_compute; reflexivity.
  - reflexivity.
Qed.

Lemma add_attribute_never_adds_witness :
  let p := mkPointer 4096 [] in
  validate (uv_set 0) = Ok tt
  /\ add_attribute sizeof_float 0 (uv_set 0) 8 p empty_G3d
     = (Undefined, empty_G3d).
Proof.
  intros p.
  assert (Hv : validate (uv_set 0) = Ok tt) by reflexivity.
  split; [exact Hv|].
  destruct add_attribute_never_adds as (_ & H & _).
  exact (proj1 (H sizeof_float 0 (uv_set 0) 8 p empty_G3d Hv)).
Defined.

(** ** Parsing the helpers' descriptor strings *)

(** C7, evaluated on the code.  [add_map_channel] adds nothing: for every
    id, data and counts the first helper throws [out_of_range] while it
    parses "g3d:none:map_channel_data:0:float32:3", and the collection is
    left as it was.  The name table knows neither "map_channel_data" nor
    "mapchannel_data", neither "map_channel_index" nor
    "mapchannel_index". *)
Theorem add_map_channel_throws :
  (forall (st1 st2 id : Z) (texture_vertices : pointer)
          (num_texture_vertices : Z) (texture_indices : pointer)
          (num_texture_faces : Z) (g : G3d),
     add_map_channel st1 st2 id texture_vertices num_texture_vertices
       texture_indices num_texture_faces g
     = (Throw out_of_range, g))
  /\ from_string "g3d:none:map_channel_data:0:float32:3" = Throw out_of_range
  /\ from_string "g3d:corner:map_channel_index:0:int32:1"
     = Throw out_of_range
  /\ attribute_type_from_string "map_channel_data" = Throw out_of_range
  /\ attribute_type_from_string "mapchannel_data" = Throw out_of_range
  /\ attribute_type_from_string "map_channel_index" = Throw out_of_range
  /\ attribute_type_from_string "mapchannel_index" = Throw out_of_range.
Proof.
  assert (H : from_string "g3d:none:map_channel_data:0:float32:3"
              = Throw out_of_range) by (vm_compute; reflexivity).
  split.
  - intros. unfold add_map_channel, add_map_channel_data, and_then, raise.
    by rewrite H.
  - split; [exact H|]. repeat split; vm_compute; reflexivity.
Qed.

(** C10, as the code has it.  [add_vertex_normals] passes the string
    "g3d:vertex:uv:0:float32:3" to [add_attribute].  The string splits
    into six tokens that stand for the valid descriptor with the role uv
    and arity 3, not the role normal; it passes every check of
    [from_string] and reaches the call of [to_string], whose result
    dangles.  For every size, data and collection the call is undefined
    and registers nothing: the collection is left as it was. *)
Theorem add_vertex_normals_registers_nothing :
  (forall (st size : Z) (data : pointer) (g : G3d),
     add_vertex_normals st size data g = (Undefined, g))
  /\ from_string "g3d:vertex:uv:0:float32:3" = Undefined
  /\ split "g3d:vertex:uv:0:float32:3" ":"
     = ["g3d"; "vertex"; "uv"; "0"; "float32"; "3"]
  /\ attribute_type_from_string "uv" = Ok (attr_uv : Z)
  /\ attribute_type_from_string "uv" <> Ok (attr_normal : Z)
  /\ tokens_parse_to (split "g3d:vertex:uv:0:float32:3" ":")
       (mkDescriptor assoc_vertex attr_uv 0 3 dt_float32)
  /\ validate (mkDescriptor assoc_vertex attr_uv 0 3 dt_float32) = Ok tt.
Proof.
  assert (H : from_string "g3d:vertex:uv:0:float32:3" = Undefined)
    by (vm_compute; reflexivity).
  split.
  - intros. unfold add_vertex_normals.
    by apply add_attribute_string_undefined.
  - split; [exact H|].
    split; [vm_compute; reflexivity|].
    split; [vm_compute; reflexivity|].
    split; [vm_compute; discriminate|].
    split; [|reflexivity].
    exists "vertex", "uv", "0", "float32", "3".
    repeat split; vm_compute; reflexivity.
Qed.

(** X19.  No helper that adds an attribute from a fixed descriptor string
    adds one, for any size, data and collection, and each leaves the
    collection unchanged.  The strings of the vertices, indices, UV sets
    and normals pass the checks of [from_string] and reach its call of
    [to_string]: these calls are undefined.  The names "material_id",
    "map_channel_data" and "map_channel_index" are not in the table: these
    calls throw [out_of_range]. *)
Theorem string_helpers_never_add (st id size : Z) (data : pointer)
    (g : G3d) :
  add_vertices st size data g = (Undefined, g)
  /\ add_vertices_as_float4 st size data g = (Undefined, g)
  /\ add_indexes st size data g = (Undefined, g)
  /\ add_uvs st size data g = (Undefined, g)
  /\ add_uv2s st size data g = (Undefined, g)
  /\ add_vertex_normals st size data g = (Undefined, g)
  /\ add_material_ids st size data g = (Throw out_of_range, g)
  /\ add_map_channel_data st id size data g = (Throw out_of_range, g)
  /\ add_map_channel_index st id size data g = (Throw out_of_range, g).
Proof.
  assert (Hd : from_string "g3d:none:map_channel_data:0:float32:3"
               = Throw out_of_range) by (vm_compute; reflexivity).
  assert (Hi : from_string "g3d:corner:map_channel_index:0:int32:1"
               = Throw out_of_range) by (vm_compute; reflexivity).
  split; [apply add_attribute_string_undefined; vm_compute; reflexivity|].
  split; [apply add_attribute_string_undefined; vm_compute; reflexivity|].
  split; [apply add_attribute_string_undefined; vm_compute; reflexivity|].
  split; [apply add_attribute_string_undefined; vm_compute; reflexivity|].
  split; [apply add_attribute_string_undefined; vm_compute; reflexivity|].
  split; [apply add_attribute_string_undefined; vm_compute; reflexivity|].
  split; [apply add_attribute_string_no_parse; vm_compute; reflexivity|].
  split.
  - unfold add_map_channel_data, and_then, raise. by rewrite Hd.
  - unfold add_map_channel_index, and_then, raise. by rewrite Hi.
Qed.

(** ** Container scenario *)

Lemma write_length (metadata : list byte) (c : Collection) :
  length (write metadata c) = (2 + 2 * length c)%nat.
Proof.
  unfold write. simpl. do 2 f_equal.
  induction c as [|kv c IH]; simpl; [done|]. rewrite IH. lia.
Qed.

(** One turn of the reader over a descriptor whose data array is a whole
    number of elements and whose canonical string is new. *)
Lemma read_channels_cons (d : AttributeDescriptor)
    (ds : list AttributeDescriptor) (data index : list byte)
    (arrays : list (list byte)) (c : Collection) (es : Z) (key : string) :
  data_element_size (mkAttribute d 0 0) = Ok es -> es <> 0 ->
  Z.of_nat (length data) mod es = 0 ->
  canonical_string d = Ok key -> key ∉ keys c ->
  read_channels (d :: ds) (data :: index :: arrays) c
  = read_channels ds arrays
      (c ++ [(key, mkChannel d data index)])%list.
Proof.
  intros Hes Hnz Hm Hk Hfresh. cbn [read_channels].
  rewrite Hes, Hk. cbn [of_result mbind framed_bind].
  destruct (Z.eqb_spec es 0); [done|]. rewrite Hm. simpl.
  by rewrite decide_False.
Qed.

(** C8, on the writer and the reader modelled from the spec.  The writer
    emits 2 + 2N arrays for N attributes; for the scenario it emits exactly
    six: the metadata, the descriptor table of 64 bytes, the 48 bytes of
    the coordinates, an empty index array, the 24 bytes of the indices, an
    empty index array.  The two keys of the scenario are the canonical
    strings of its two descriptors, and the reader turns the six arrays
    back into the metadata and the collection that was written: the same
    two keys in the same order, the same descriptors, the same bytes. *)
Theorem container_scenario :
  (forall (metadata : list byte) (c : Collection),
     length (write metadata c) = (2 + 2 * length c)%nat)
  /\ canonical_string vertex_coordinates
     = Ok "g3d:vertex:coordinate:0:float32:3"
  /\ canonical_string corner_indices = Ok "g3d:corner:index:0:int32:1"
  /\ (forall metadata data0 data1 : list byte,
        length data0 = 48%nat -> length data1 = 24%nat ->
        let table := (encode_descriptor vertex_coordinates
                      ++ encode_descriptor corner_indices)%list in
        write metadata (scenario data0 data1)
        = [metadata; table; data0; []; data1; []]
        /\ length table = 64%nat
        /\ keys (scenario data0 data1)
           = ["g3d:vertex:coordinate:0:float32:3";
              "g3d:corner:index:0:int32:1"]
        /\ read (write metadata (scenario data0 data1))
           = inr (metadata, scenario data0 data1)).
Proof.
  split; [exact write_length|].
  split; [vm_compute; reflexivity|]. split; [vm_compute; reflexivity|].
  intros metadata data0 data1 H0 H1 table.
  assert (Hw : write metadata (scenario data0 data1)
               = [metadata; table; data0; []; data1; []]) by reflexivity.
  split; [exact Hw|]. split; [reflexivity|]. split; [reflexivity|].
  rewrite Hw. unfold read.
  assert (Hds : read_descriptors (records (length table / 32) table)
                = inr [vertex_coordinates; corner_indices])
    by (vm_compute; reflexivity).
  rewrite Hds. cbn [mbind framed_bind length Nat.eqb Nat.mul Nat.add negb].
  rewrite (read_channels_cons vertex_coordinates _ data0 [] _ [] 12
             "g3d:vertex:coordinate:0:float32:3");
    [|reflexivity|done|by rewrite H0|by vm_compute|by apply not_elem_of_nil].
  rewrite (read_channels_cons corner_indices _ data1 [] _ _ 4
             "g3d:corner:index:0:int32:1");
    [|reflexivity|done|by rewrite H1|by vm_compute|].
  - reflexivity.
  - unfold keys. simpl. intros Hin.
    apply elem_of_cons in Hin as [Hin|Hin]; [discriminate|].
    by apply elem_of_nil in Hin.
Qed.

Lemma container_scenario_witness :
  let data0 := replicate 48 x01 in
  let data1 := replicate 24 x02 in
  length data0 = 48%nat /\ length data1 = 24%nat
  /\ read (write [] (scenario data0 data1))
     = inr ([], scenario data0 data1).
Proof.
  intros data0 data1.
  assert (H0 : length data0 = 48%nat) by reflexivity.
  assert (H1 : length data1 = 24%nat) by reflexivity.
  split; [exact H0|]. split; [exact H1|].
  destruct container_scenario as (_ & _ & _ & H).
  exact (proj2 (proj2 (proj2 (H [] data0 data1 H0 H1)))).
Defined.

(** ** Attributes *)

(** What a successful constructor has checked. *)
Lemma new_Attribute_Ok_inv (desc : AttributeDescriptor) (b e : Z)
    (a : Attribute) :
  new_Attribute desc b e = Ok a ->
  a = mkAttribute desc b e /\ b <> 0 /\ e <> 0
  /\ exists es, data_element_size a = Ok es /\ es <> 0
                /\ byte_size a mod es = 0.
Proof.
  intros H. pose proof (new_Attribute_Ok _ _ _ _ H) as ->.
  unfold new_Attribute in H.
  destruct (Z.eqb_spec b 0); [discriminate|].
  destruct (Z.eqb_spec e 0); [discriminate|]. cbn [orb] in H.
  destruct (data_element_size _) as [es| |]; cbn [mbind result_bind bind] in H;
    try discriminate.
  destruct (Z.eqb_spec es 0); [discriminate|].
  destruct (Z.eqb_spec (byte_size (mkAttribute desc b e) mod es) 0);
    [|discriminate].
  repeat split; try done. by exists es.
Qed.

(** X12.  An attribute that the constructor returns divides into whole
    elements: its element size is defined and not zero, and its number of
    elements times the element size is its byte size; its bounds are not
    null. *)
Theorem new_Attribute_whole_elements (desc : AttributeDescriptor) (b e : Z)
    (a : Attribute) :
  new_Attribute desc b e = Ok a ->
  descriptor a = desc /\ _begin a = b /\ _end a = e /\ b <> 0 /\ e <> 0
  /\ exists es n,
       data_element_size a = Ok es /\ es <> 0
       /\ num_elements a = Ok n /\ n * es = byte_size a.
Proof.
  intros H.
  apply new_Attribute_Ok_inv in H as (-> & Hb & He & es & Hes & Hnz & Hm).
  repeat split; try done.
  exists es, (byte_size (mkAttribute desc b e) / es).
  split; [done|]. split; [done|]. split.
  - unfold num_elements. rewrite Hes. cbn [mbind result_bind bind].
    by destruct (Z.eqb_spec es 0).
  - apply Z.div_exact in Hm; [lia|done].
Qed.

Lemma new_Attribute_whole_elements_witness :
  new_Attribute vertex_coordinates 4096 4120
  = Ok (mkAttribute vertex_coordinates 4096 4120)
  /\ exists es n,
       data_element_size (mkAttribute vertex_coordinates 4096 4120) = Ok es
       /\ es <> 0
       /\ num_elements (mkAttribute vertex_coordinates 4096 4120) = Ok n
       /\ n * es = byte_size (mkAttribute vertex_coordinates 4096 4120).
Proof.
  assert (H : new_Attribute vertex_coordinates 4096 4120
              = Ok (mkAttribute vertex_coordinates 4096 4120))
    by (vm_compute; reflexivity).
  split; [exact H|].
  exact (proj2 (proj2 (proj2 (proj2 (proj2
    (new_Attribute_whole_elements _ _ _ _ H)))))).
Defined.

(** The constructor checks in this order: a null bound throws "Null
    parameters" whatever the descriptor; then a data type without a size
    throws "invalid data type"; only then the alignment is looked at. *)
Theorem new_Attribute_check_order (desc : AttributeDescriptor) (b e : Z) :
  (b = 0 \/ e = 0 -> new_Attribute desc b e = Throw null_parameters)
  /\ (b <> 0 -> e <> 0 ->
      (_data_type desc < 0 \/ dt_invalid <= _data_type desc) ->
      new_Attribute desc b e = Throw (runtime_error "invalid data type")).
Proof.
  split.
  - intros H. unfold new_Attribute.
    destruct (Z.eqb_spec b 0), (Z.eqb_spec e 0); try done. lia.
  - intros Hb He Hd. unfold new_Attribute.
    destruct (Z.eqb_spec b 0), (Z.eqb_spec e 0); try done. cbn [orb].
    unfold data_element_size, data_type_size, data_type.
    cbn [descriptor].
    assert (Hs : data_type_size_of (_data_type desc)
                 = Throw (runtime_error "invalid data type")).
    { destruct (_data_type desc) as [|p|p]; simpl in *; try lia; try done.
      do 4 (try destruct p as [p|p|]; try done; try lia). }
    by rewrite Hs.
Qed.

Lemma new_Attribute_check_order_witness :
  (0 = 0 \/ 4096 = 0)
  /\ new_Attribute (mkDescriptor 0 0 0 1 dt_invalid) 0 4096
     = Throw null_parameters.
Proof.
  assert (H : 0 = 0 \/ 4096 = 0) by (left; reflexivity).
  split; [exact H|].
  exact (proj1 (new_Attribute_check_order
                  (mkDescriptor 0 0 0 1 dt_invalid) 0 4096) H).
Defined.

(** X13.  An empty range at an address that is not null is accepted for
    every descriptor whose element size is defined and not zero, and has no
    element. *)
Theorem new_Attribute_empty_range (desc : AttributeDescriptor) (b es : Z) :
  b <> 0 ->
  data_element_size (mkAttribute desc b b) = Ok es -> es <> 0 ->
  new_Attribute desc b b = Ok (mkAttribute desc b b)
  /\ num_elements (mkAttribute desc b b) = Ok 0.
Proof.
  intros Hb Hes Hnz.
  assert (Hs : byte_size (mkAttribute desc b b) = 0).
  { unfold byte_size, size_t. cbn [_begin _end]. by rewrite Z.sub_diag. }
  split.
  - rewrite (new_Attribute_checked desc b b es) by done.
    rewrite Hs. by rewrite decide_True by apply Z.mod_0_l, Hnz.
  - unfold num_elements. rewrite Hes, Hs. cbn [mbind result_bind bind].
    destruct (Z.eqb_spec es 0); [done|]. by rewrite Z.div_0_l.
Qed.

Lemma new_Attribute_empty_range_witness :
  4096 <> 0
  /\ data_element_size (mkAttribute vertex_coordinates 4096 4096) = Ok 12
  /\ 12 <> 0
  /\ new_Attribute vertex_coordinates 4096 4096
     = Ok (mkAttribute vertex_coordinates 4096 4096).
Proof.
  assert (H1 : 4096 <> 0) by lia.
  assert (H2 : data_element_size (mkAttribute vertex_coordinates 4096 4096)
               = Ok 12) by reflexivity.
  assert (H3 : 12 <> 0) by lia.
  split; [exact H1|]. split; [exact H2|]. split; [exact H3|].
  exact (proj1 (new_Attribute_empty_range vertex_coordinates 4096 12
                  H1 H2 H3)).
Defined.

(** ** Builders *)

(** An owning builder made without a source holds
    [size * sizeof(T)] zero bytes, and its attribute ranges over
    [size * sizeof(T)] bytes from the address of the buffer. *)
Theorem owning_builder_zero_initialised (T st n : Z)
    (d : AttributeDescriptor) (r : AttributeBuilder) :
  new_AttributeBuilderOwn T st d n nullptr = Ok r ->
  r = AttributeBuilderOwn (replicate (Z.to_nat (n * T)) x00)
        (mkAttribute d st (st + n * T))
  /\ st <> 0 /\ st + n * T <> 0.
Proof.
  unfold new_AttributeBuilderOwn. cbn [address nullptr].
  destruct (new_Attribute d st _) as [a| |] eqn:Ha;
    cbn [mbind result_bind bind]; try discriminate.
  apply new_Attribute_Ok_inv in Ha as (-> & Hb & He & _).
  change (0 =? 0) with true. cbv iota. by intros [= <-].
Qed.

Lemma owning_builder_zero_initialised_witness :
  new_AttributeBuilderOwn 4 4096 uint32_scalar 4 nullptr
  = Ok (AttributeBuilderOwn (replicate 16 x00)
          (mkAttribute uint32_scalar 4096 4112))
  /\ AttributeBuilderOwn (replicate 16 x00)
       (mkAttribute uint32_scalar 4096 4112)
     = AttributeBuilderOwn (replicate (Z.to_nat (4 * 4)) x00)
         (mkAttribute uint32_scalar 4096 (4096 + 4 * 4)).
Proof.
  assert (H : new_AttributeBuilderOwn 4 4096 uint32_scalar 4 nullptr
              = Ok (AttributeBuilderOwn (replicate 16 x00)
                      (mkAttribute uint32_scalar 4096 4112)))
    by (vm_compute; reflexivity).
  split; [exact H|].
  exact (proj1 (owning_builder_zero_initialised 4 4096 4 uint32_scalar _ H)).
Defined.

(** X14.  An owning builder made with a source has copied [size] bytes of
    it, the number of values and not of bytes: the first [size] bytes of
    the buffer are the first [size] bytes of the source, the bytes after
    them are still zero, and the source had at least [size] bytes to
    read. *)
Theorem owning_builder_copies_size_bytes (T st n : Z)
    (d : AttributeDescriptor) (source : pointer) (buffer : list byte)
    (a : Attribute) :
  address source <> 0 -> 1 <= T -> 0 <= n ->
  new_AttributeBuilderOwn T st d n source = Ok (AttributeBuilderOwn buffer a) ->
  n <= Z.of_nat (length (readable source))
  /\ take (Z.to_nat n) buffer = take (Z.to_nat n) (readable source)
  /\ drop (Z.to_nat n) buffer = replicate (Z.to_nat (n * T - n)) x00
  /\ length buffer = Z.to_nat (n * T).
Proof.
  intros Hs HT Hn. unfold new_AttributeBuilderOwn.
  destruct (new_Attribute d st _) as [a'| |];
    cbn [mbind result_bind bind]; try discriminate.
  destruct (Z.eqb_spec (address source) 0); [done|].
  destruct (Z.ltb_spec (Z.of_nat (length (readable source))) n);
    [discriminate|].
  intros [= <- <-].
  assert (Hl : length (take (Z.to_nat n) (readable source)) = Z.to_nat n).
  { rewrite length_take. lia. }
  split; [done|]. split; [|split].
  - rewrite take_app_length'; done.
  - rewrite drop_app_length' by done.
    rewrite drop_replicate. f_equal. nia.
  - rewrite length_app, Hl, length_drop, length_replicate. nia.
Qed.

Lemma owning_builder_copies_size_bytes_witness :
  let source := mkPointer 8192 (replicate 16 x01) in
  let buffer := (replicate 4 x01 ++ replicate 12 x00)%list in
  let a := mkAttribute uint32_scalar 4096 4112 in
  address source <> 0 /\ 1 <= 4 /\ 0 <= 4
  /\ new_AttributeBuilderOwn 4 4096 uint32_scalar 4 source
     = Ok (AttributeBuilderOwn buffer a)
  /\ drop (Z.to_nat 4) buffer = replicate (Z.to_nat (4 * 4 - 4)) x00.
Proof.
  intros source buffer a.
  assert (H1 : address source <> 0) by (simpl; lia).
  assert (H2 : 1 <= 4) by lia.
  assert (H3 : 0 <= 4) by lia.
  assert (H4 : new_AttributeBuilderOwn 4 4096 uint32_scalar 4 source
               = Ok (AttributeBuilderOwn buffer a))
    by (vm_compute; reflexivity).
  split; [exact H1|]. split; [exact H2|]. split; [exact H3|].
  split; [exact H4|].
  exact (proj1 (proj2 (proj2
    (owning_builder_copies_size_bytes 4 4096 4 uint32_scalar source
       buffer a H1 H2 H3 H4)))).
Defined.

